(** * lance-mcp: ingestion pipeline and search formatting

    A shallow embedding of the TypeScript sources
    - [src/tools/operations/chunks_search.ts]: the [chunks_search] tool;
    - [src/tools/operations/broad_chunks_search.ts], which carries three
      units one after the other: the [all_chunks_search] tool (lines
      1-96), the [catalog_search] tool (lines 97-161) and the ingestion
      script with [processDocuments], [processImages] and [seed] (lines
      162-454);
    - [src/image-processor.ts]: the image pipeline;
    followed by the properties of the specification stated over it.

    JavaScript values that the code inspects dynamically ([any]) are
    modelled by [JsVal], exceptions by [Result], the code that talks to
    the database by a state-and-exception monad over the two tables, and
    the other external capabilities (file system, rasterizer, image
    codec, loader, summarizer) by the fields of an environment record.
    Console output is not modelled. *)

From Stdlib Require Import String Ascii List ZArith Lia Bool Arith.
From Stdlib Require Import DecimalString.
Import ListNotations.
Open Scope string_scope.

Set Implicit Arguments.

(* ================================================================== *)
(** ** Exceptions *)

Inductive JsError : Type :=
| TypeError (msg : string)
| Failure (msg : string).

Inductive Result (A : Type) : Type :=
| Ok (a : A)
| Throw (e : JsError).

Arguments Ok {A} a.
Arguments Throw {A} e.

Definition bind {A B} (r : Result A) (k : A -> Result B) : Result B :=
  match r with
  | Ok a => k a
  | Throw e => Throw e
  end.

Notation "x <- c ;; k" := (bind c (fun x => k))
  (at level 61, c at next level, right associativity).

(** [try { body } catch { handler }] *)
Definition try_catch {A} (body : Result A) (handler : JsError -> A) : A :=
  match body with
  | Ok a => a
  | Throw e => handler e
  end.

(* ================================================================== *)
(** ** JavaScript values *)

Module Js.

(** Numbers are the integers: the numbers met in location metadata are
    page and line counters. *)
Unset Elimination Schemes.
Inductive JsVal : Type :=
| JUndefined
| JNull
| JBool (b : bool)
| JNum (n : Z)
| JStr (s : string)
| JArr (xs : list JsVal)
| JObj (fields : list (string * JsVal)).
Set Elimination Schemes.

Inductive JsType := TUndefined | TObject | TBoolean | TNumber | TString.

Definition typeof (v : JsVal) : JsType :=
  match v with
  | JUndefined => TUndefined
  | JNull | JArr _ | JObj _ => TObject
  | JBool _ => TBoolean
  | JNum _ => TNumber
  | JStr _ => TString
  end.

Definition is_empty (s : string) : bool :=
  match s with EmptyString => true | _ => false end.

(** ToBoolean *)
Definition truthy (v : JsVal) : bool :=
  match v with
  | JUndefined | JNull => false
  | JBool b => b
  | JNum n => negb (Z.eqb n 0)
  | JStr s => negb (is_empty s)
  | JArr _ | JObj _ => true
  end.

Definition is_undefined (v : JsVal) : bool :=
  match v with JUndefined => true | _ => false end.

Definition nullish (v : JsVal) : bool :=
  match v with JUndefined | JNull => true | _ => false end.

Fixpoint lookup (k : string) (fields : list (string * JsVal)) : JsVal :=
  match fields with
  | [] => JUndefined
  | (k', v) :: rest => if String.eqb k k' then v else lookup k rest
  end.

(** [v?.k] for the data properties the tools read (none of them is an
    array index, [length] or a prototype member). *)
Definition get_opt (v : JsVal) (k : string) : JsVal :=
  match v with
  | JObj fields => lookup k fields
  | _ => JUndefined
  end.

(** [v.k]: reading a property of [undefined] or [null] throws. *)
Definition get (v : JsVal) (k : string) : Result JsVal :=
  if nullish v
  then Throw (TypeError ("Cannot read properties of undefined (reading '" ++ k ++ "')"))
  else Ok (get_opt v k).

Definition string_of_Z (n : Z) : string :=
  NilZero.string_of_int (Z.to_int n).

Definition string_of_nat (n : nat) : string :=
  NilEmpty.string_of_uint (Nat.to_uint n).

(** The abstract operation ToString, as used by template literals. *)
Fixpoint to_string (v : JsVal) : string :=
  match v with
  | JUndefined => "undefined"
  | JNull => "null"
  | JBool true => "true"
  | JBool false => "false"
  | JNum n => string_of_Z n
  | JStr s => s
  | JArr xs =>
      (fix join (l : list JsVal) : string :=
         match l with
         | [] => ""
         | x :: rest =>
             let sx := match x with
                       | JUndefined | JNull => ""
                       | _ => to_string x
                       end in
             match rest with
             | [] => sx
             | _ => sx ++ "," ++ join rest
             end
         end) xs
  | JObj _ => "[object Object]"
  end.

(** The method call [v.toString()]. *)
Definition toString (v : JsVal) : Result string :=
  if nullish v
  then Throw (TypeError "Cannot read properties of undefined (reading 'toString')")
  else Ok (to_string v).

(** [a === b] against a string. *)
Definition strict_eq_string (v : JsVal) (s : string) : bool :=
  match v with
  | JStr s' => String.eqb s' s
  | _ => false
  end.

(** [s.split(sep)] for a one-character separator. *)
Fixpoint split (sep : ascii) (s : string) : list string :=
  match s with
  | EmptyString => [""]
  | String c rest =>
      if Ascii.eqb c sep then "" :: split sep rest
      else match split sep rest with
           | [] => [String c ""]
           | seg :: segs => String c seg :: segs
           end
  end.

(** [arr.pop()] on a fresh array: its last element. *)
Definition pop (l : list string) : JsVal :=
  match l with
  | [] => JUndefined
  | x :: rest => JStr (last rest x)
  end.

(** [v.split('/').pop()]: only strings have a [split] method. *)
Definition split_pop (v : JsVal) : Result JsVal :=
  match v with
  | JStr s => Ok (pop (split "/" s))
  | JUndefined | JNull =>
      Throw (TypeError "Cannot read properties of undefined (reading 'split')")
  | _ => Throw (TypeError "split is not a function")
  end.

End Js.
Import Js.

Definition nl : string := String "010" EmptyString.

(** A retrieved LangChain document. *)
Record Document := mkDocument {
  pageContent : string;
  metadata : JsVal
}.

(** What a tool hands back: the formatted text, or what the base class
    builds from a caught error. *)
Inductive ToolResponse :=
| Success (text : string)
| IsError (e : JsError).

Definition handleError (e : JsError) : ToolResponse := IsError e.

Definition respond (r : Result string) : ToolResponse :=
  try_catch (out <- r ;; Ok (Success out)) handleError.

(* ================================================================== *)
(** ** chunks_search.ts: the [chunks_search] tool *)

Module ChunksSearchTool.

Record ChunksSearchParams := mkParams {
  text : string;
  source : option string       (* [source?: string] *)
}.

Definition name : string := "chunks_search".

Record InputSchema := mkSchema {
  properties : list string;
  required : list string
}.

Definition inputSchema : InputSchema :=
  {| properties := ["text"; "source"]; required := ["text"; "source"] |}.

(** [if (params.source)]: provided and not the empty string. *)
Definition source_provided (params : ChunksSearchParams) : bool :=
  match source params with
  | Some s => negb (is_empty s)
  | None => false
  end.

Definition extractPageInfo (loc : JsVal) : Result (option string) :=
  if negb (truthy loc) then Ok None
  else
    let primitive :=
      match typeof loc with
      | TString | TNumber => s <- toString loc ;; Ok (Some s)
      | _ => Ok None
      end in
    match typeof loc with
    | TObject =>
        pageNumber <- get loc "pageNumber" ;;
        if negb (is_undefined pageNumber)
        then s <- toString pageNumber ;; Ok (Some s)
        else
          page <- get loc "page" ;;
          if negb (is_undefined page)
          then s <- toString page ;; Ok (Some s)
          else
            lines <- get loc "lines" ;;
            if truthy lines
            then
              from <- get lines "from" ;;
              if negb (is_undefined from)
              then
                to <- get lines "to" ;;
                Ok (Some ("Line " ++ to_string from ++
                          (if truthy to then "-" ++ to_string to else "")))
              else primitive
            else primitive
    | _ => primitive
    end.

(** What [if (pageInfo) formattedOutput += ` (Page ${pageInfo})`] appends. *)
Definition page_annotation (pageInfo : option string) : string :=
  match pageInfo with
  | Some p => if is_empty p then "" else " (Page " ++ p ++ ")"
  | None => ""
  end.

(** The body of the [forEach] callback: what one hit appends. *)
Definition append_result (formattedOutput : string) (result : Document)
    (index : nat) : Result string :=
  let src := get_opt (metadata result) "source" in
  fileName <- (if truthy src then split_pop src
               else Ok (JStr "Unknown file")) ;;
  pageInfo <- extractPageInfo (get_opt (metadata result) "loc") ;;
  let out := formattedOutput ++ "**Result " ++ string_of_nat (index + 1) ++ "**" ++ nl in
  let out := out ++ "📄 **Source**: " ++ to_string fileName in
  let out := out ++ page_annotation pageInfo in
  let out := out ++ nl in
  let out := if truthy src
             then out ++ "🔗 **File Path**: " ++ to_string src ++ nl
             else out in
  let out := out ++ "📝 **Content**: " ++ pageContent result ++ nl in
  Ok (out ++ "---" ++ nl ++ nl).

Fixpoint forEach (results : list Document) (index : nat)
    (formattedOutput : string) : Result string :=
  match results with
  | [] => Ok formattedOutput
  | result :: rest =>
      out <- append_result formattedOutput result index ;;
      forEach rest (S index) out
  end.

(** [results] is [None] for a missing (undefined or null) array. *)
Definition formatResultsWithReferences (results : option (list Document))
  : Result string :=
  match results with
  | None => Ok "No results found."
  | Some [] => Ok "No results found."
  | Some l => forEach l 0 ("Search Results:" ++ nl ++ nl)
  end.

(** [results.filter(result => result.metadata.source === params.source)] *)
Fixpoint filter_by_source (src : string) (results : list Document)
  : Result (list Document) :=
  match results with
  | [] => Ok []
  | result :: rest =>
      s <- get (metadata result) "source" ;;
      kept <- filter_by_source src rest ;;
      Ok (if strict_eq_string s src then result :: kept else kept)
  end.

Section Execute.
(** [chunksVectorStore.asRetriever().invoke]: the similarity query. *)
Variable retriever : string -> Result (list Document).

Definition execute (params : ChunksSearchParams) : ToolResponse :=
  respond (
    results <- retriever (text params) ;;
    filteredResults <-
      (if source_provided params
       then match source params with
            | Some s => filter_by_source s results
            | None => Ok results
            end
       else Ok results) ;;
    formatResultsWithReferences (Some filteredResults)).
End Execute.

End ChunksSearchTool.

(* ================================================================== *)
(** ** broad_chunks_search.ts, lines 1-96: the [all_chunks_search] tool *)

Module BroadSearchTool.

Record BroadSearchParams := mkParams { text : string }.

Definition name : string := "all_chunks_search".

Definition extractPageInfo (loc : JsVal) : Result (option string) :=
  if negb (truthy loc) then Ok None
  else
    let primitive :=
      match typeof loc with
      | TString | TNumber => s <- toString loc ;; Ok (Some s)
      | _ => Ok None
      end in
    match typeof loc with
    | TObject =>
        pageNumber <- get loc "pageNumber" ;;
        if negb (is_undefined pageNumber)
        then s <- toString pageNumber ;; Ok (Some s)
        else
          page <- get loc "page" ;;
          if negb (is_undefined page)
          then s <- toString page ;; Ok (Some s)
          else
            lines <- get loc "lines" ;;
            if truthy lines
            then
              from <- get lines "from" ;;
              if negb (is_undefined from)
              then
                to <- get lines "to" ;;
                Ok (Some ("Line " ++ to_string from ++
                          (if truthy to then "-" ++ to_string to else "")))
              else primitive
            else primitive
    | _ => primitive
    end.

(** What [if (pageInfo) formattedOutput += ` (Page ${pageInfo})`] appends. *)
Definition page_annotation (pageInfo : option string) : string :=
  match pageInfo with
  | Some p => if is_empty p then "" else " (Page " ++ p ++ ")"
  | None => ""
  end.

Definition append_result (formattedOutput : string) (result : Document)
    (index : nat) : Result string :=
  let src := get_opt (metadata result) "source" in
  fileName <- (if truthy src then split_pop src
               else Ok (JStr "Unknown file")) ;;
  pageInfo <- extractPageInfo (get_opt (metadata result) "loc") ;;
  let out := formattedOutput ++ "**Result " ++ string_of_nat (index + 1) ++ "**" ++ nl in
  let out := out ++ "📄 **Source**: " ++ to_string fileName in
  let out := out ++ page_annotation pageInfo in
  let out := out ++ nl in
  let out := if truthy src
             then out ++ "🔗 **File Path**: " ++ to_string src ++ nl
             else out in
  let out := out ++ "📝 **Content**: " ++ pageContent result ++ nl in
  Ok (out ++ "---" ++ nl ++ nl).

Fixpoint forEach (results : list Document) (index : nat)
    (formattedOutput : string) : Result string :=
  match results with
  | [] => Ok formattedOutput
  | result :: rest =>
      out <- append_result formattedOutput result index ;;
      forEach rest (S index) out
  end.

Definition formatResultsWithReferences (results : option (list Document))
  : Result string :=
  match results with
  | None => Ok "No results found."
  | Some [] => Ok "No results found."
  | Some l => forEach l 0 ("Search Results:" ++ nl ++ nl)
  end.

Section Execute.
Variable retriever : string -> Result (list Document).

Definition execute (params : BroadSearchParams) : ToolResponse :=
  respond (
    results <- retriever (text params) ;;
    formatResultsWithReferences (Some results)).
End Execute.

End BroadSearchTool.

(* ================================================================== *)
(** ** broad_chunks_search.ts, lines 97-161: the [catalog_search] tool *)

Module CatalogSearchTool.

Record CatalogSearchParams := mkParams { text : string }.

Definition name : string := "catalog_search".

Definition append_result (formattedOutput : string) (result : Document)
    (index : nat) : Result string :=
  let src := get_opt (metadata result) "source" in
  fileName <- (if truthy src then split_pop src
               else Ok (JStr "Unknown file")) ;;
  let out := formattedOutput ++ "**Result " ++ string_of_nat (index + 1) ++ "**" ++ nl in
  let out := out ++ "📄 **Source**: " ++ to_string fileName ++ nl in
  let out := if truthy src
             then out ++ "🔗 **File Path**: " ++ to_string src ++ nl
             else out in
  let out := out ++ "📝 **Content**: " ++ pageContent result ++ nl in
  Ok (out ++ "---" ++ nl ++ nl).

Fixpoint forEach (results : list Document) (index : nat)
    (formattedOutput : string) : Result string :=
  match results with
  | [] => Ok formattedOutput
  | result :: rest =>
      out <- append_result formattedOutput result index ;;
      forEach rest (S index) out
  end.

Definition formatResultsWithReferences (results : option (list Document))
  : Result string :=
  match results with
  | None => Ok "No results found."
  | Some [] => Ok "No results found."
  | Some l => forEach l 0 ("Search Results:" ++ nl ++ nl)
  end.

Section Execute.
(** [catalogVectorStore.asRetriever({}).invoke] *)
Variable retriever : string -> Result (list Document).

Definition execute (params : CatalogSearchParams) : ToolResponse :=
  respond (
    results <- retriever (text params) ;;
    formatResultsWithReferences (Some results)).
End Execute.

End CatalogSearchTool.

(* ================================================================== *)
(** ** External capabilities

    What the two ingestion files call but do not implement.  One value of
    [Env] describes the machine for the duration of a run: the files under
    the input root and the answers of the libraries. *)

(** [pdf2pic] *)
Record Pdf2PicOptions := mkPdf2PicOptions {
  density : nat;
  saveFilename : string;
  savePath : string;
  format : string;
  width : nat;
  height : nat
}.

Record ConvertResult := mkConvertResult {
  path : option string            (* [result.path] may be missing *)
}.

(** [sharp] *)
Inductive Fit := FitInside | FitCover | FitContain | FitFill | FitOutside.

Record ResizeOptions := mkResizeOptions {
  resize_width : nat;
  resize_height : nat;
  fit : Fit;
  withoutEnlargement : bool
}.

Inductive OutputFormat := Png | Jpeg | Webp.

Record Metadata := mkMetadata {
  meta_width : option nat;
  meta_height : option nat;
  meta_format : option string
}.

(** [fs.Dirent] together with what [readdir] gives below it. *)
Unset Elimination Schemes.
Inductive Dirent : Type :=
| DFile (name : string)
| DDirectory (name : string) (readable : bool) (entries : list Dirent)
| DOther (name : string).
Set Elimination Schemes.

Record Env := mkEnv {
  (* node:path *)
  path_join : string -> string -> string;
  path_basename : string -> string;
  path_basename_ext : string -> string -> string;
  path_extname : string -> string;
  (* node:os, node:fs, node:crypto *)
  os_tmpdir : string;
  mkdir : string -> Result unit;      (* create the directory unless it exists *)
  readFile : string -> Result string;
  sha256_hex : string -> string;
  (* the command line and the input root *)
  filesDir : string;
  filesDir_readable : bool;
  filesDir_entries : list Dirent;
  (* pdf2pic and sharp *)
  pdf2pic_bulk : string -> Pdf2PicOptions -> Result (list ConvertResult);
  sharp_toFile : string -> ResizeOptions -> OutputFormat -> string -> Result unit;
  sharp_metadata : string -> Result Metadata;
  (* LangChain: the PDF directory loader and the summarization chain *)
  directoryLoader_load : Result (list Document);
  summarize : list Document -> Result string
}.

(** [s.toLowerCase()], modelled on the ASCII letters: it is applied to
    file extensions and to the tail of a path compared with ".pdf". *)
Definition lower_ascii (c : ascii) : ascii :=
  let n := nat_of_ascii c in
  if andb (Nat.leb 65 n) (Nat.leb n 90) then ascii_of_nat (n + 32) else c.

Fixpoint toLowerCase (s : string) : string :=
  match s with
  | EmptyString => EmptyString
  | String c rest => String (lower_ascii c) (toLowerCase rest)
  end.

(** [s.endsWith(suffix)] *)
Definition endsWith (s suffix : string) : bool :=
  let n := String.length s in
  let m := String.length suffix in
  andb (Nat.leb m n) (String.eqb (substring (n - m) m s) suffix).

Definition includes (l : list string) (x : string) : bool :=
  existsb (String.eqb x) l.

(* ================================================================== *)
(** ** image-processor.ts *)

Module ImageProcessor.

Record ImageProcessingResult := mkImageProcessingResult {
  description : string;
  imagePath : string;
  source : string;
  pageNumber : option nat         (* [pageNumber?: number] *)
}.

Section WithEnv.
Variable env : Env.

Definition path_truthy (r : ConvertResult) : option string :=
  match path r with
  | Some p => if is_empty p then None else Some p
  | None => None
  end.

(** The loop [for (const result of results) if (result.path) push]. *)
Fixpoint collect_paths (results : list ConvertResult) : list string :=
  match results with
  | [] => []
  | result :: rest =>
      match path_truthy result with
      | Some p => p :: collect_paths rest
      | None => collect_paths rest
      end
  end.

Definition pdf2picOptions (pdfPath tempDir : string) : Pdf2PicOptions :=
  {| density := 100;
     saveFilename := path_basename_ext env pdfPath ".pdf";
     savePath := tempDir;
     format := "png";
     width := 1024;
     height := 1024 |}.

Definition extractImagesFromPDF (pdfPath tempDir : string) : list string :=
  try_catch
    (let options := pdf2picOptions pdfPath tempDir in
     results <- pdf2pic_bulk env pdfPath options ;;
     Ok (collect_paths results))
    (fun _ => []).

Definition optimizedPathOf (imagePath tempDir : string) : string :=
  path_join env tempDir ("optimized_" ++ path_basename env imagePath).

Definition resizeRequest : ResizeOptions :=
  {| resize_width := 1024; resize_height := 1024;
     fit := FitInside; withoutEnlargement := true |}.

Definition processStandaloneImage (imagePath tempDir : string) : string :=
  try_catch
    (let optimizedPath := optimizedPathOf imagePath tempDir in
     _ <- sharp_toFile env imagePath resizeRequest Png optimizedPath ;;
     Ok optimizedPath)
    (fun _ => imagePath).

Definition nonzero (n : option nat) : option nat :=
  match n with
  | Some (S k) => Some (S k)
  | _ => None
  end.

Definition generateImageDescription (imagePath : string) : string :=
  let fileName := path_basename env imagePath in
  let fileExt := toLowerCase (path_extname env imagePath) in
  let description := "Image file: " ++ fileName ++ " (" ++ fileExt ++ ")" in
  let description :=
    try_catch
      (metadata <- sharp_metadata env imagePath ;;
       let d := match nonzero (meta_width metadata), nonzero (meta_height metadata) with
                | Some w, Some h =>
                    description ++ " - Dimensions: " ++ string_of_nat w ++ "x" ++ string_of_nat h
                | _, _ => description
                end in
       Ok (match meta_format metadata with
           | Some f => if is_empty f then d else d ++ " - Format: " ++ f
           | None => d
           end))
      (fun _ => description) in
  description ++ " - Visual content analysis will be available when vision model is properly configured".

(** The loop [for (let i = 0; i < imagePaths.length; i++)]. *)
Fixpoint describe_pages (pdfPath : string) (imagePaths : list string) (i : nat)
  : list ImageProcessingResult :=
  match imagePaths with
  | [] => []
  | imagePath :: rest =>
      {| description := generateImageDescription imagePath;
         imagePath := imagePath;
         source := pdfPath;
         pageNumber := Some (i + 1) |} :: describe_pages pdfPath rest (S i)
  end.

Definition processImagesFromPDF (pdfPath tempDir : string)
  : list ImageProcessingResult :=
  let imagePaths := extractImagesFromPDF pdfPath tempDir in
  describe_pages pdfPath imagePaths 0.

Definition processStandaloneImageFile (imagePath tempDir : string)
  : option ImageProcessingResult :=
  try_catch
    (let optimizedPath := processStandaloneImage imagePath tempDir in
     let description := generateImageDescription optimizedPath in
     Ok (Some {| description := description;
                 imagePath := optimizedPath;
                 source := imagePath;
                 pageNumber := None |}))
    (fun _ => None).

Definition resultToDocument (result : ImageProcessingResult) : Document :=
  {| pageContent := "[IMAGE] " ++ description result;
     metadata := JObj ([("source", JStr (source result));
                        ("type", JStr "image");
                        ("imagePath", JStr (imagePath result))] ++
                       match nonzero (pageNumber result) with
                       | Some n => [("pageNumber", JNum (Z.of_nat n))]
                       | None => []
                       end) |}.

Definition resultsToDocuments (results : list ImageProcessingResult)
  : list Document :=
  map resultToDocument results.

Definition supportedExtensions : list string :=
  [".png"; ".jpg"; ".jpeg"; ".gif"; ".webp"; ".bmp"; ".tiff"; ".tif"].

Definition isSupportedImageFormat (filePath : string) : bool :=
  let ext := toLowerCase (path_extname env filePath) in
  includes supportedExtensions ext.

End WithEnv.

End ImageProcessor.

(* ================================================================== *)
(** ** The vector database

    Two tables in one database.  A row is the committed document (its
    text and its metadata fields as columns; the embedding column plays no
    part below).  [queryLog] records every query the engine is asked to
    run, most recent last. *)

Module Lance.

(** The predicates the code sends: [column="literal"]. *)
Inductive Filter := ColEq (column literal : string).

Definition Table := list Document.

Inductive TableName := CATALOG_TABLE_NAME | CHUNKS_TABLE_NAME.

Record Db := mkDb {
  catalog : option Table;
  chunks : option Table;
  queryLog : list (TableName * Filter)
}.

Definition table_of (db : Db) (n : TableName) : option Table :=
  match n with
  | CATALOG_TABLE_NAME => catalog db
  | CHUNKS_TABLE_NAME => chunks db
  end.

Definition set_table (db : Db) (n : TableName) (t : option Table) : Db :=
  match n with
  | CATALOG_TABLE_NAME => {| catalog := t; chunks := chunks db; queryLog := queryLog db |}
  | CHUNKS_TABLE_NAME => {| catalog := catalog db; chunks := t; queryLog := queryLog db |}
  end.

Definition column (row : Document) (c : string) : JsVal :=
  if String.eqb c "text" then JStr (pageContent row)
  else get_opt (metadata row) c.

Definition matches (f : Filter) (row : Document) : bool :=
  match f with
  | ColEq c literal => strict_eq_string (column row c) literal
  end.

(** Code that talks to the database: state passing with exceptions. *)
Definition M (A : Type) : Type := Db -> Result A * Db.

Definition ret {A} (a : A) : M A := fun db => (Ok a, db).

Definition throw {A} (e : JsError) : M A := fun db => (Throw e, db).

Definition bindM {A B} (m : M A) (k : A -> M B) : M B :=
  fun db =>
    match m db with
    | (Ok a, db') => k a db'
    | (Throw e, db') => (Throw e, db')
    end.

Definition lift {A} (r : Result A) : M A := fun db => (r, db).

Definition tryM {A} (body : M A) (handler : JsError -> M A) : M A :=
  fun db =>
    match body db with
    | (Ok a, db') => (Ok a, db')
    | (Throw e, db') => handler e db'
    end.

Definition openTable (n : TableName) : M TableName :=
  fun db =>
    match table_of db n with
    | Some _ => (Ok n, db)
    | None => (Throw (Failure "Table was not found"), db)
    end.

Definition dropTable (n : TableName) : M unit :=
  fun db =>
    match table_of db n with
    | Some _ => (Ok tt, set_table db n None)
    | None => (Throw (Failure "Table was not found"), db)
    end.

Definition logged (db : Db) (q : TableName * Filter) : Db :=
  {| catalog := catalog db; chunks := chunks db;
     queryLog := (queryLog db ++ [q])%list |}.

(** [table.query().where(f).limit(n).toArray()] *)
Definition query_where_limit (t : TableName) (f : Filter) (n : nat)
  : M (list Document) :=
  fun db =>
    let db' := logged db (t, f) in
    match table_of db t with
    | Some rows => (Ok (firstn n (filter (matches f) rows)), db')
    | None => (Throw (Failure "Table was not found"), db')
    end.

Inductive Mode := Overwrite.

(** Modelled from the spec: the commit of a staged batch by the vector
    store ([LanceDB.fromDocuments] of LangChain, which is not part of the
    sources).  In rebuild mode the table is recreated from the new batch
    only; in append mode the new records are appended to the existing
    table, which is created when it does not exist.  [seed] passes
    [mode: overwrite ? "overwrite" : undefined] and no table handle, and
    what the library does with the rows of an existing table in that case
    is its own matter: the results on [seed] use of a commit only that it
    writes the table it is given and no other, that a rebuild leaves
    exactly the new batch, and that a commit to a table that does not
    exist creates it from the batch. *)
Definition fromDocuments (docs : list Document) (mode : option Mode)
    (tableName : TableName) : M unit :=
  fun db =>
    match mode with
    | Some Overwrite => (Ok tt, set_table db tableName (Some docs))
    | None =>
        (Ok tt, set_table db tableName
                  (Some (match table_of db tableName with
                         | Some rows => (rows ++ docs)%list
                         | None => docs
                         end)))
    end.

End Lance.
Import Lance.

Notation "x <~ c ;; k" := (bindM c (fun x => k))
  (at level 61, c at next level, right associativity).

(* ================================================================== *)
(** ** The chunk splitter *)

Module TextSplitter.

Record RecursiveCharacterTextSplitter := mkSplitter {
  chunkSize : nat;
  chunkOverlap : nat
}.

(** Number of windows over a text of [len > 0] characters. *)
Definition window_count (size stride len : nat) : nat :=
  if Nat.leb len size then 1
  else 1 + (len - size + stride - 1) / stride.

(** Modelled from the spec: the chunk splitter (LangChain's
    [RecursiveCharacterTextSplitter], which is not part of the sources).
    The text is cut into windows of [chunkSize] characters, each starting
    [chunkSize - chunkOverlap] characters after the previous one, so that
    neighbours share [chunkOverlap] characters; the last window is the
    shorter remainder.  An empty text gives no chunk. *)
Definition splitText (sp : RecursiveCharacterTextSplitter) (text : string)
  : list string :=
  let stride := chunkSize sp - chunkOverlap sp in
  if is_empty text then []
  else map (fun i => substring (i * stride) (chunkSize sp) text)
           (seq 0 (window_count (chunkSize sp) stride (String.length text))).

(** Modelled from the spec: every chunk of a document carries the
    document's metadata; chunks come out in document order. *)
Definition splitDocuments (sp : RecursiveCharacterTextSplitter)
    (docs : list Document) : list Document :=
  flat_map (fun doc =>
              map (fun chunk => {| pageContent := chunk; metadata := metadata doc |})
                  (splitText sp (pageContent doc)))
           docs.

End TextSplitter.

(* ================================================================== *)
(** ** broad_chunks_search.ts, lines 162-454: the ingestion script

    The command line is taken as given ([validateArgs] passes); its
    [--filesdir] is [filesDir] of the environment. *)

Module Seed.

Import ImageProcessor TextSplitter.

Record Processed := mkProcessed {
  skipSources : list string;
  catalogRecords : list Document
}.

(** What a run computes before it ends (the counts it prints are the
    lengths of these lists). *)
Record Report := mkReport {
  processed : Processed;
  textDocs : list Document;
  imageDocuments : list Document
}.

Definition catalogRecordExists (catalogTable : option TableName)
    (hash : string) : M bool :=
  match catalogTable with
  | None => throw (TypeError "Cannot read properties of undefined (reading 'query')")
  | Some t =>
      results <~ query_where_limit t (ColEq "hash" hash) 1 ;;
      ret (Nat.ltb 0 (List.length results))
  end.

(** [skipExistsCheck ? false : await catalogRecordExists(catalogTable, hash)] *)
Definition existsCheck (skipExistsCheck : bool)
    (catalogTable : option TableName) (hash : string) : M bool :=
  if skipExistsCheck then ret false
  else catalogRecordExists catalogTable hash.

(** The third argument [seed] passes: [overwrite || !catalogTableExists]. *)
Definition skipExistsCheckOf (overwrite catalogTableExists : bool) : bool :=
  orb overwrite (negb catalogTableExists).

(** The members an object literal inherits from [Object.prototype].  With
    one of these names as [source], [acc[source]] is the inherited member,
    no array is stored, and [acc[source].push] throws. *)
Definition object_prototype_members : list string :=
  [ "constructor"; "__proto__"; "hasOwnProperty"; "isPrototypeOf";
    "propertyIsEnumerable"; "toLocaleString"; "toString"; "valueOf";
    "__defineGetter__"; "__defineSetter__";
    "__lookupGetter__"; "__lookupSetter__" ].

Definition inherited (key : string) : bool :=
  existsb (String.eqb key) object_prototype_members.

(** One step of the [reduce] that groups documents by source.  The
    accumulator [{}] is kept as the list of its own entries in insertion
    order.  This is the object for the keys the loader produces, file
    paths: such a key is not [inherited], and it is not the decimal form
    of an array index, which [Object.entries] would list before the
    other keys.  Statements about other keys say so ([inherited]), and
    statements about arbitrary groups do not depend on their order. *)
Fixpoint group_push (source : string) (doc : Document)
    (acc : list (string * list Document)) : list (string * list Document) :=
  match acc with
  | [] => [(source, [doc])]
  | (k, docs) :: rest =>
      if String.eqb k source then (k, (docs ++ [doc])%list) :: rest
      else (k, docs) :: group_push source doc rest
  end.

(** The [reduce] itself, for sources that are not [inherited]: it throws
    when [doc.metadata] is null or undefined.  (With an [inherited]
    source the code throws as well, at [push]; that path is outside this
    definition.) *)
Fixpoint docsBySource (rawDocs : list Document)
    (acc : list (string * list Document))
  : Result (list (string * list Document)) :=
  match rawDocs with
  | [] => Ok acc
  | doc :: rest =>
      source <- get (metadata doc) "source" ;;
      docsBySource rest (group_push (to_string source) doc acc)
  end.

(** [doc.metadata = { loc: doc.metadata.loc, source: doc.metadata.source }] *)
Definition strip_metadata (doc : Document) : Result Document :=
  loc <- get (metadata doc) "loc" ;;
  source <- get (metadata doc) "source" ;;
  Ok {| pageContent := pageContent doc;
        metadata := JObj [("loc", loc); ("source", source)] |}.

Fixpoint strip_all (rawDocs : list Document) : Result (list Document) :=
  match rawDocs with
  | [] => Ok []
  | doc :: rest =>
      doc' <- strip_metadata doc ;;
      rest' <- strip_all rest ;;
      Ok (doc' :: rest')
  end.

(** [skipSources.includes(doc.metadata.source)] *)
Definition includes_val (l : list string) (v : JsVal) : bool :=
  existsb (strict_eq_string v) l.

(** [new Set()] filled with [add]. *)
Definition set_add (l : list string) (x : string) : list string :=
  if includes l x then l else (l ++ [x])%list.

(** The loop that collects the PDF sources that are not skipped. *)
Fixpoint collect_pdfSources (rawDocs : list Document) (skip : list string)
    (pdfSources : list string) : Result (list string) :=
  match rawDocs with
  | [] => Ok pdfSources
  | doc :: rest =>
      source <- get (metadata doc) "source" ;;
      if negb (includes_val skip source)
      then match source with
           | JStr s =>
               if endsWith (toLowerCase s) ".pdf"
               then collect_pdfSources rest skip (set_add pdfSources s)
               else collect_pdfSources rest skip pdfSources
           | JUndefined | JNull =>
               Throw (TypeError "Cannot read properties of undefined (reading 'toLowerCase')")
           | _ => Throw (TypeError "toLowerCase is not a function")
           end
      else collect_pdfSources rest skip pdfSources
  end.

Section WithEnv.
Variable env : Env.

Definition catalogRecord (source hash overview : string) : Document :=
  {| pageContent := overview;
     metadata := JObj [("source", JStr source); ("hash", JStr hash)] |}.

(** The loop over [Object.entries(docsBySource)]. *)
Fixpoint process_sources (entries : list (string * list Document))
    (catalogTable : option TableName) (skipExistsCheck : bool)
    (skip : list string) (records : list Document) : M Processed :=
  match entries with
  | [] => ret {| skipSources := skip; catalogRecords := records |}
  | (source, docs) :: rest =>
      fileContent <~ lift (readFile env source) ;;
      let hash := sha256_hex env fileContent in
      exists_ <~ existsCheck skipExistsCheck catalogTable hash ;;
      if (exists_ : bool)
      then process_sources rest catalogTable skipExistsCheck
             (skip ++ [source])%list records
      else
        contentOverview <~ lift (summarize env docs) ;;
        process_sources rest catalogTable skipExistsCheck skip
          (records ++ [catalogRecord source hash contentOverview])%list
  end.

Definition processDocuments (rawDocs : list Document)
    (catalogTable : option TableName) (skipExistsCheck : bool) : M Processed :=
  groups <~ lift (docsBySource rawDocs []) ;;
  process_sources groups catalogTable skipExistsCheck [] [].

(** [scanDirectory]: one entry of a directory, then the rest. *)
Fixpoint scanEntry (currentDir : string) (entry : Dirent)
    (imageFiles : list string) {struct entry} : Result (list string) :=
  match entry with
  | DDirectory name readable entries =>
      let fullPath := path_join env currentDir name in
      if readable
      then (fix scan (es : list Dirent) (acc : list string) : Result (list string) :=
              match es with
              | [] => Ok acc
              | e :: es' => acc' <- scanEntry fullPath e acc ;; scan es' acc'
              end) entries imageFiles
      else Throw (Failure "EACCES: permission denied, scandir")
  | DFile name =>
      let fullPath := path_join env currentDir name in
      if isSupportedImageFormat env fullPath
      then Ok (imageFiles ++ [fullPath])%list
      else Ok imageFiles
  | DOther _ => Ok imageFiles
  end.

Fixpoint scanEntries (currentDir : string) (entries : list Dirent)
    (imageFiles : list string) : Result (list string) :=
  match entries with
  | [] => Ok imageFiles
  | e :: es => acc <- scanEntry currentDir e imageFiles ;; scanEntries currentDir es acc
  end.

Definition findImageFiles : Result (list string) :=
  if filesDir_readable env
  then scanEntries (filesDir env) (filesDir_entries env) []
  else Throw (Failure "EACCES: permission denied, scandir").

Definition tempDir : string := path_join env (os_tmpdir env) "lance-mcp-images".

Definition pdfImageDocs (pdfSources : list string) : list Document :=
  flat_map (fun pdfPath =>
              resultsToDocuments (processImagesFromPDF env pdfPath tempDir))
           pdfSources.

Definition standaloneImageDocs (imageFiles : list string) : list Document :=
  flat_map (fun imagePath =>
              match processStandaloneImageFile env imagePath tempDir with
              | Some result => resultsToDocuments [result]
              | None => []
              end)
           imageFiles.

(** Whatever is thrown inside is caught; the documents pushed so far
    are returned. *)
Definition processImages (rawDocs : list Document) (skip : list string)
  : list Document :=
  match mkdir env tempDir with
  | Throw _ => []
  | Ok _ =>
      match collect_pdfSources rawDocs skip [] with
      | Throw _ => []
      | Ok pdfSources =>
          let fromPdfs := pdfImageDocs pdfSources in
          match findImageFiles with
          | Throw _ => fromPdfs
          | Ok imageFiles => (fromPdfs ++ standaloneImageDocs imageFiles)%list
          end
      end
  end.

Definition splitter : RecursiveCharacterTextSplitter :=
  {| chunkSize := 500; chunkOverlap := 10 |}.

Definition modeOf (overwrite : bool) : option Mode :=
  if overwrite then Some Overwrite else None.

Definition is_nil {A} (l : list A) : bool :=
  match l with [] => true | _ => false end.

(** The two [try { openTable } catch] blocks. *)
Definition openCatalogTable : M (option TableName * bool) :=
  tryM (t <~ openTable CATALOG_TABLE_NAME ;; ret (Some t, true))
       (fun _ => ret (None, false)).

Definition openChunksTable : M (option TableName) :=
  tryM (t <~ openTable CHUNKS_TABLE_NAME ;; ret (Some t))
       (fun _ => ret None).

(** [if (overwrite) try { drop; drop } catch {}] *)
Definition dropTables (overwrite : bool) : M unit :=
  if overwrite
  then tryM (_ <~ dropTable CATALOG_TABLE_NAME ;; dropTable CHUNKS_TABLE_NAME)
            (fun _ => ret tt)
  else ret tt.

(** [docs.length > 0 ? await LanceDB.fromDocuments(...) : new LanceDB(...)]:
    an empty batch writes nothing. *)
Definition store (docs : list Document) (overwrite : bool)
    (tableName : TableName) : M unit :=
  if is_nil docs then ret tt
  else fromDocuments docs (modeOf overwrite) tableName.

Definition seed (overwrite : bool) : M Report :=
  opened <~ openCatalogTable ;;
  let catalogTable := fst opened in
  let catalogTableExists := snd opened in
  chunksTable <~ openChunksTable ;;
  _ <~ dropTables overwrite ;;
  loaded <~ lift (directoryLoader_load env) ;;
  rawDocs <~ lift (strip_all loaded) ;;
  p <~ processDocuments rawDocs catalogTable
         (skipExistsCheckOf overwrite catalogTableExists) ;;
  _ <~ store (catalogRecords p) overwrite CATALOG_TABLE_NAME ;;
  let filteredRawDocs :=
    filter (fun doc => negb (includes_val (skipSources p)
                               (get_opt (metadata doc) "source"))) rawDocs in
  let images := processImages rawDocs (skipSources p) in
  let texts := splitDocuments splitter filteredRawDocs in
  let allDocs := (texts ++ images)%list in
  _ <~ store allDocs overwrite CHUNKS_TABLE_NAME ;;
  ret {| processed := p; textDocs := texts; imageDocuments := images |}.

End WithEnv.

End Seed.

(* ================================================================== *)
(** * Properties of the search tools *)

Module SearchProperties.

(** The two chunk tools carry the same formatter. *)
Lemma extractPageInfo_same (loc : JsVal) :
  BroadSearchTool.extractPageInfo loc = ChunksSearchTool.extractPageInfo loc.
Proof. reflexivity. Qed.

Lemma forEach_same (results : list Document) (i : nat) (acc : string) :
  BroadSearchTool.forEach results i acc = ChunksSearchTool.forEach results i acc.
Proof.
  revert i acc. induction results as [|r rest IH]; intros i acc; simpl.
  - reflexivity.
  - unfold BroadSearchTool.append_result, ChunksSearchTool.append_result.
    destruct (if truthy (get_opt (metadata r) "source")
              then split_pop (get_opt (metadata r) "source")
              else Ok (JStr "Unknown file")) as [f|e]; simpl; [|reflexivity].
    rewrite extractPageInfo_same.
    destruct (ChunksSearchTool.extractPageInfo (get_opt (metadata r) "loc"));
      simpl; [apply IH | reflexivity].
Qed.

(** ** Location metadata *)




(** The text between the parentheses that follow the file name. *)
Definition annotation (loc : JsVal) : Result (option string) :=
  pageInfo <- ChunksSearchTool.extractPageInfo loc ;;
  Ok (match pageInfo with
      | Some p => if is_empty p then None else Some ("Page " ++ p)
      | None => None
      end).

Lemma page_annotation_annotation (loc : JsVal) (info : option string) :
  ChunksSearchTool.extractPageInfo loc = Ok info ->
  match annotation loc with
  | Ok (Some a) => ChunksSearchTool.page_annotation info = " (" ++ a ++ ")"
  | Ok None => ChunksSearchTool.page_annotation info = ""
  | Throw _ => False
  end.
Proof.
  intros H. unfold annotation. rewrite H. simpl.
  destruct info as [p|]; simpl; [|reflexivity].
  destruct p; reflexivity.
Qed.






(** ** Empty result sets *)

(** C5.  A missing hit list and an empty hit list format to the literal
    "No results found." in each of the three search operations, and each
    operation answers with that text when retrieval finds nothing. *)
Theorem C5_no_results_found :
  ChunksSearchTool.formatResultsWithReferences None = Ok "No results found." /\
  ChunksSearchTool.formatResultsWithReferences (Some []) = Ok "No results found." /\
  BroadSearchTool.formatResultsWithReferences None = Ok "No results found." /\
  BroadSearchTool.formatResultsWithReferences (Some []) = Ok "No results found." /\
  CatalogSearchTool.formatResultsWithReferences None = Ok "No results found." /\
  CatalogSearchTool.formatResultsWithReferences (Some []) = Ok "No results found." /\
  (forall params,
     ChunksSearchTool.execute (fun _ => Ok []) params = Success "No results found.") /\
  (forall params,
     BroadSearchTool.execute (fun _ => Ok []) params = Success "No results found.") /\
  (forall params,
     CatalogSearchTool.execute (fun _ => Ok []) params = Success "No results found.").
Proof.
  repeat split; try reflexivity.
  intros [txt [src|]]; unfold ChunksSearchTool.execute; simpl; [|reflexivity].
  destruct (ChunksSearchTool.source_provided _); reflexivity.
Qed.

(** ** The source filter of chunks_search *)

(** The hit's [metadata.source] is the string [src]. *)
Definition has_source (src : string) (hit : Document) : bool :=
  strict_eq_string (get_opt (metadata hit) "source") src.

(** The hit has a metadata object to read [source] from. *)
Definition has_metadata (hit : Document) : Prop :=
  nullish (metadata hit) = false.

Lemma has_source_spec (src : string) (hit : Document) :
  has_source src hit = true <-> get_opt (metadata hit) "source" = JStr src.
Proof.
  unfold has_source, strict_eq_string.
  destruct (get_opt (metadata hit) "source"); split; intros H;
    try discriminate H.
  - apply String.eqb_eq in H. now subst.
  - injection H as ->. apply String.eqb_refl.
Qed.

Lemma filter_by_source_filter (src : string) (hits : list Document) :
  Forall has_metadata hits ->
  ChunksSearchTool.filter_by_source src hits = Ok (filter (has_source src) hits).
Proof.
  induction 1 as [|hit rest Hm _ IH]; simpl; [reflexivity|].
  unfold get. rewrite Hm. simpl. rewrite IH. reflexivity.
Qed.

(** A hit without metadata makes the filter throw. *)
Lemma filter_by_source_throws (src : string) (hits kept : list Document) :
  ChunksSearchTool.filter_by_source src hits = Ok kept ->
  Forall has_metadata hits.
Proof.
  revert kept. induction hits as [|hit rest IH]; intros kept H; [constructor|].
  simpl in H. unfold get in H.
  destruct (nullish (metadata hit)) eqn:Hm; simpl in H; [discriminate H|].
  destruct (ChunksSearchTool.filter_by_source src rest) as [k|e] eqn:Hr;
    simpl in H; [|discriminate H].
  constructor; [exact Hm | eapply IH; reflexivity].
Qed.

(** The claim of the specification for one retriever, query and source:
    the output is the formatting of exactly the retrieved hits whose
    source is [src]. *)
Definition output_filtered_by_source
    (retriever : string -> Result (list Document)) (txt src : string) : Prop :=
  forall hits,
    retriever txt = Ok hits ->
    Forall has_metadata hits ->
    ChunksSearchTool.execute retriever
      {| ChunksSearchTool.text := txt; ChunksSearchTool.source := Some src |} =
    respond (ChunksSearchTool.formatResultsWithReferences
               (Some (filter (has_source src) hits))).

Definition hit_a : Document :=
  {| pageContent := "alpha";
     metadata := JObj [("loc", JObj [("pageNumber", JNum 1)]);
                       ("source", JStr "/docs/a.pdf")] |}.

Definition hit_b : Document :=
  {| pageContent := "beta";
     metadata := JObj [("loc", JObj [("pageNumber", JNum 7)]);
                       ("source", JStr "/docs/b.pdf")] |}.

Definition retriever_ab (txt : string) : Result (list Document) :=
  Ok [hit_a; hit_b].

(** C4, refuted as stated: with the empty string as source the answer is
    built from both retrieved hits, none of which has the empty string as
    its source. *)
Lemma C4_counterexample :
  ~ output_filtered_by_source retriever_ab "q" "" /\
  filter (has_source "") [hit_a; hit_b] = [] /\
  ChunksSearchTool.execute retriever_ab
    {| ChunksSearchTool.text := "q"; ChunksSearchTool.source := Some "" |} =
  respond (ChunksSearchTool.formatResultsWithReferences (Some [hit_a; hit_b])).
Proof.
  split; [|split; reflexivity].
  intros H. specialize (H [hit_a; hit_b] eq_refl).
  assert (Hm : Forall has_metadata [hit_a; hit_b])
    by (repeat constructor).
  specialize (H Hm). vm_compute in H. discriminate H.
Qed.

(** C4, amended: for every query text and every non-empty source string
    the retriever is asked with the query text alone, and the output is
    the formatting of exactly those retrieved hits, in retrieval order,
    whose [metadata.source] is string-equal to the given source. *)
Theorem C4_source_filter
    (retriever : string -> Result (list Document)) (txt src : string)
    (hits : list Document) :
  src <> "" ->
  retriever txt = Ok hits ->
  Forall has_metadata hits ->
  ChunksSearchTool.execute retriever
    {| ChunksSearchTool.text := txt; ChunksSearchTool.source := Some src |} =
  respond (ChunksSearchTool.formatResultsWithReferences
             (Some (filter (has_source src) hits))) /\
  (forall hit, In hit (filter (has_source src) hits) <->
               In hit hits /\ get_opt (metadata hit) "source" = JStr src).
Proof.
  intros Hsrc Hret Hmeta. split.
  - unfold ChunksSearchTool.execute, ChunksSearchTool.source_provided. simpl.
    rewrite Hret. simpl.
    destruct src as [|c rest]; [contradiction Hsrc; reflexivity|]. simpl.
    rewrite (filter_by_source_filter _ Hmeta). reflexivity.
  - intros hit. rewrite filter_In, has_source_spec. reflexivity.
Qed.

Lemma C4_source_filter_witness :
  ChunksSearchTool.execute retriever_ab
    {| ChunksSearchTool.text := "q";
       ChunksSearchTool.source := Some "/docs/b.pdf" |} =
  respond (ChunksSearchTool.formatResultsWithReferences (Some [hit_b])).
Proof.
  refine (proj1 (@C4_source_filter retriever_ab "q" "/docs/b.pdf"
                   [hit_a; hit_b] _ eq_refl _)).
  - discriminate.
  - repeat constructor.
Defined.

(** C10.  [source] is listed as required by the input schema, yet with
    the empty string as source the filter is not applied: the output is
    the formatting of all retrieved hits, whatever their source. *)
Theorem C10_empty_source_skips_filter
    (retriever : string -> Result (list Document)) (txt : string)
    (hits : list Document) :
  retriever txt = Ok hits ->
  In "source" (ChunksSearchTool.required ChunksSearchTool.inputSchema) /\
  ChunksSearchTool.source_provided
    {| ChunksSearchTool.text := txt; ChunksSearchTool.source := Some "" |} = false /\
  ChunksSearchTool.execute retriever
    {| ChunksSearchTool.text := txt; ChunksSearchTool.source := Some "" |} =
  respond (ChunksSearchTool.formatResultsWithReferences (Some hits)).
Proof.
  intros Hret. split; [simpl; auto|]. split; [reflexivity|].
  unfold ChunksSearchTool.execute. simpl. rewrite Hret. reflexivity.
Qed.

Lemma C10_empty_source_skips_filter_witness :
  ChunksSearchTool.execute retriever_ab
    {| ChunksSearchTool.text := "q"; ChunksSearchTool.source := Some "" |} =
  respond (ChunksSearchTool.formatResultsWithReferences (Some [hit_a; hit_b])).
Proof.
  exact (proj2 (proj2 (@C10_empty_source_skips_filter retriever_ab "q"
                         [hit_a; hit_b] eq_refl))).
Defined.

End SearchProperties.

(* ================================================================== *)
(** * Properties of the image pipeline *)

Module ImageProperties.

Import ImageProcessor.

(** A small machine used to run the pipeline on concrete inputs: the
    input root holds [report.pdf], [notes.pdf] and [photo.png]; the
    rasterizer fails on [notes.pdf] and the codec fails on every image. *)
Definition demo_join (a b : string) : string := a ++ "/" ++ b.

Definition demo_basename (p : string) : string :=
  match pop (split "/" p) with
  | JStr s => s
  | _ => p
  end.

Definition demo_extname (p : string) : string :=
  let n := String.length p in
  if endsWith p ".pdf" then ".pdf"
  else if endsWith p ".png" then ".png"
  else "".

Definition demo_env : Env :=
  {| path_join := demo_join;
     path_basename := demo_basename;
     path_basename_ext := fun p ext =>
       let b := demo_basename p in
       if endsWith b ext then substring 0 (String.length b - String.length ext) b else b;
     path_extname := demo_extname;
     os_tmpdir := "/tmp";
     mkdir := fun _ => Ok tt;
     readFile := fun p =>
       if String.eqb p "/in/report.pdf" then Ok "%PDF-report"
       else if String.eqb p "/in/notes.pdf" then Ok "%PDF-notes"
       else if String.eqb p "/in/photo.png" then Ok "PNG-photo"
       else Throw (Failure "ENOENT");
     sha256_hex := fun content => "sha256:" ++ content;
     filesDir := "/in";
     filesDir_readable := true;
     filesDir_entries := [DFile "report.pdf"; DFile "notes.pdf"; DFile "photo.png"];
     pdf2pic_bulk := fun pdfPath options =>
       if String.eqb pdfPath "/in/report.pdf"
       then Ok [ {| path := Some (demo_join (savePath options) "report.1.png") |};
                 {| path := Some (demo_join (savePath options) "report.2.png") |} ]
       else Throw (Failure "pdf2pic: cannot convert");
     sharp_toFile := fun _ _ _ _ => Throw (Failure "Input file contains unsupported image format");
     sharp_metadata := fun _ =>
       Ok {| meta_width := Some 800; meta_height := Some 600; meta_format := Some "png" |};
     directoryLoader_load :=
       Ok [ {| pageContent := "first page of the report";
               metadata := JObj [("source", JStr "/in/report.pdf");
                                 ("loc", JObj [("pageNumber", JNum 1)]);
                                 ("pdf", JObj [("totalPages", JNum 2)])] |};
            {| pageContent := "second page of the report";
               metadata := JObj [("source", JStr "/in/report.pdf");
                                 ("loc", JObj [("pageNumber", JNum 2)]);
                                 ("pdf", JObj [("totalPages", JNum 2)])] |};
            {| pageContent := "notes";
               metadata := JObj [("source", JStr "/in/notes.pdf");
                                 ("loc", JObj [("pageNumber", JNum 1)])] |} ];
     summarize := fun docs => Ok "An overview." |}.

(** The same machine with a codec that works. *)
Definition demo_env_codec_ok : Env :=
  {| path_join := path_join demo_env;
     path_basename := path_basename demo_env;
     path_basename_ext := path_basename_ext demo_env;
     path_extname := path_extname demo_env;
     os_tmpdir := os_tmpdir demo_env;
     mkdir := mkdir demo_env;
     readFile := readFile demo_env;
     sha256_hex := sha256_hex demo_env;
     filesDir := filesDir demo_env;
     filesDir_readable := filesDir_readable demo_env;
     filesDir_entries := filesDir_entries demo_env;
     pdf2pic_bulk := pdf2pic_bulk demo_env;
     sharp_toFile := fun _ _ _ _ => Ok tt;
     sharp_metadata := sharp_metadata demo_env;
     directoryLoader_load := directoryLoader_load demo_env;
     summarize := summarize demo_env |}.

Section WithEnv.
Variable env : Env.

Lemma describe_pages_length (pdfPath : string) (imagePaths : list string) (i : nat) :
  List.length (describe_pages env pdfPath imagePaths i) = List.length imagePaths.
Proof.
  revert i. induction imagePaths as [|p rest IH]; intros i; simpl;
    [reflexivity | now rewrite IH].
Qed.

Lemma describe_pages_pageNumber (pdfPath : string) (imagePaths : list string) (i : nat) :
  map pageNumber (describe_pages env pdfPath imagePaths i) =
  map Some (seq (i + 1) (List.length imagePaths)).
Proof.
  revert i. induction imagePaths as [|p rest IH]; intros i; simpl;
    [reflexivity|].
  f_equal. rewrite IH. simpl. reflexivity.
Qed.

Lemma describe_pages_imagePath (pdfPath : string) (imagePaths : list string) (i : nat) :
  map imagePath (describe_pages env pdfPath imagePaths i) = imagePaths.
Proof.
  revert i. induction imagePaths as [|p rest IH]; intros i; simpl;
    [reflexivity | now rewrite IH].
Qed.

Lemma describe_pages_source (pdfPath : string) (imagePaths : list string) (i : nat) :
  Forall (fun r => source r = pdfPath) (describe_pages env pdfPath imagePaths i).
Proof.
  revert i. induction imagePaths as [|p rest IH]; intros i; simpl;
    constructor; [reflexivity | apply IH].
Qed.

Lemma describe_pages_description (pdfPath : string) (imagePaths : list string) (i : nat) :
  map description (describe_pages env pdfPath imagePaths i) =
  map (generateImageDescription env) imagePaths.
Proof.
  revert i. induction imagePaths as [|p rest IH]; intros i; simpl;
    [reflexivity | now rewrite IH].
Qed.

Lemma extractImagesFromPDF_failure (pdfPath tempDir : string) (e : JsError) :
  pdf2pic_bulk env pdfPath (pdf2picOptions env pdfPath tempDir) = Throw e ->
  extractImagesFromPDF env pdfPath tempDir = [].
Proof.
  intros H. unfold extractImagesFromPDF. simpl. rewrite H. reflexivity.
Qed.

Lemma describe_pages_nth (pdfPath : string) (imagePaths : list string) :
  forall i0 i p,
    nth_error imagePaths i = Some p ->
    nth_error (describe_pages env pdfPath imagePaths i0) i =
    Some {| description := generateImageDescription env p;
            imagePath := p;
            source := pdfPath;
            pageNumber := Some (i0 + i + 1) |}.
Proof.
  induction imagePaths as [|q rest IH]; intros i0 i p H.
  - destruct i; discriminate H.
  - destruct i as [|i]; cbn [describe_pages nth_error] in *.
    + injection H as ->. rewrite Nat.add_0_r. reflexivity.
    + rewrite (IH (S i0) i p H).
      replace (S i0 + i + 1) with (i0 + S i + 1) by lia. reflexivity.
Qed.

End WithEnv.

(** ** The pages the rasterizer stored *)

(** The rasterizer reports a file for the page: [result.path] is a
    non-empty string. *)
Definition stored (page : ConvertResult) : bool :=
  match path page with
  | Some p => negb (is_empty p)
  | None => false
  end.

Definition page_path (page : ConvertResult) : string :=
  match path page with
  | Some p => p
  | None => ""
  end.

(** The files of the stored pages, in page order. *)
Definition stored_pages (rasterized : list ConvertResult) : list string :=
  map page_path (filter stored rasterized).

Lemma stored_path (page : ConvertResult) :
  stored page = true -> path page = Some (page_path page).
Proof.
  unfold stored, page_path. destruct (path page); [reflexivity | discriminate].
Qed.

Lemma collect_paths_stored (rasterized : list ConvertResult) :
  collect_paths rasterized = stored_pages rasterized.
Proof.
  unfold stored_pages.
  induction rasterized as [|page rest IH]; [reflexivity|].
  cbn [collect_paths filter]. rewrite IH. unfold path_truthy.
  destruct (stored page) eqn:Hst.
  - cbn [map]. rewrite (stored_path _ Hst).
    unfold stored in Hst. rewrite (stored_path _ Hst) in Hst.
    destruct (is_empty (page_path page)); [discriminate Hst | reflexivity].
  - unfold stored in Hst. destruct (path page) as [p|]; [|reflexivity].
    destruct (is_empty p); [reflexivity | discriminate Hst].
Qed.

Lemma extractImagesFromPDF_stored (env : Env) (pdfPath tempDir : string)
    (rasterized : list ConvertResult) :
  pdf2pic_bulk env pdfPath (pdf2picOptions env pdfPath tempDir) = Ok rasterized ->
  extractImagesFromPDF env pdfPath tempDir = stored_pages rasterized.
Proof.
  intros H. unfold extractImagesFromPDF. cbv zeta. rewrite H.
  cbn [bind try_catch]. apply collect_paths_stored.
Qed.

Lemma filter_all (A : Type) (f : A -> bool) (l : list A) :
  List.length (filter f l) = List.length l <-> forallb f l = true.
Proof.
  induction l as [|a l IH]; [split; reflexivity|].
  cbn [filter forallb]. destruct (f a); cbn [andb List.length].
  - rewrite <- IH. split; [intros [= H]; exact H | intros ->; reflexivity].
  - split; [|discriminate]. intros H.
    assert (Hle : List.length (filter f l) <= List.length l)
      by apply filter_length_le.
    lia.
Qed.

Lemma stored_pages_all (rasterized : list ConvertResult) :
  forallb stored rasterized = true ->
  stored_pages rasterized = map page_path rasterized.
Proof.
  intros H. unfold stored_pages. f_equal.
  induction rasterized as [|page rest IH]; [reflexivity|].
  cbn [forallb] in H. apply andb_prop in H. destruct H as [Hp Hrest].
  cbn [filter]. rewrite Hp, (IH Hrest). reflexivity.
Qed.

(** C7.  When the rasterizer fails on a PDF, the failure is caught:
    [extractImagesFromPDF] returns the empty list, the PDF contributes no
    image result and no image document, and [processImages] goes on with
    the other PDFs and with the standalone images. *)
Theorem C7_pdf_extraction_failure (env : Env) (pdfPath tempDir : string)
    (e : JsError) :
  pdf2pic_bulk env pdfPath (pdf2picOptions env pdfPath tempDir) = Throw e ->
  extractImagesFromPDF env pdfPath tempDir = [] /\
  processImagesFromPDF env pdfPath tempDir = [] /\
  resultsToDocuments (processImagesFromPDF env pdfPath tempDir) = [] /\
  (forall rawDocs skip before after imageFiles,
     tempDir = Seed.tempDir env ->
     mkdir env (Seed.tempDir env) = Ok tt ->
     Seed.collect_pdfSources rawDocs skip [] = Ok (before ++ pdfPath :: after)%list ->
     Seed.findImageFiles env = Ok imageFiles ->
     Seed.processImages env rawDocs skip =
     (Seed.pdfImageDocs env (before ++ after) ++
      Seed.standaloneImageDocs env imageFiles)%list).
Proof.
  intros Hfail.
  assert (Hx : extractImagesFromPDF env pdfPath tempDir = [])
    by (eapply extractImagesFromPDF_failure; eassumption).
  assert (Hp : processImagesFromPDF env pdfPath tempDir = [])
    by (unfold processImagesFromPDF; rewrite Hx; reflexivity).
  repeat split; trivial.
  - rewrite Hp. reflexivity.
  - intros rawDocs skip before after imageFiles Htmp Hmk Hpdf Himg.
    unfold Seed.processImages. rewrite Hmk, Hpdf, Himg.
    f_equal. unfold Seed.pdfImageDocs.
    rewrite !flat_map_app. simpl. rewrite <- Htmp, Hp. reflexivity.
Qed.

Definition demo_rawDocs : list Document :=
  [ {| pageContent := "first page of the report";
       metadata := JObj [("loc", JObj [("pageNumber", JNum 1)]);
                         ("source", JStr "/in/report.pdf")] |};
    {| pageContent := "notes";
       metadata := JObj [("loc", JObj [("pageNumber", JNum 1)]);
                         ("source", JStr "/in/notes.pdf")] |} ].

Lemma C7_pdf_extraction_failure_witness :
  pdf2pic_bulk demo_env "/in/notes.pdf"
    (pdf2picOptions demo_env "/in/notes.pdf" (Seed.tempDir demo_env)) =
  Throw (Failure "pdf2pic: cannot convert") /\
  extractImagesFromPDF demo_env "/in/notes.pdf" (Seed.tempDir demo_env) = [] /\
  Seed.processImages demo_env demo_rawDocs [] =
  (Seed.pdfImageDocs demo_env ["/in/report.pdf"] ++
   Seed.standaloneImageDocs demo_env ["/in/photo.png"])%list.
Proof.
  pose proof (@C7_pdf_extraction_failure demo_env "/in/notes.pdf"
                (Seed.tempDir demo_env) (Failure "pdf2pic: cannot convert")
                eq_refl) as (Hx & _ & _ & Hrest).
  split; [reflexivity|]. split; [exact Hx|].
  exact (Hrest demo_rawDocs [] ["/in/report.pdf"] [] ["/in/photo.png"]
           eq_refl eq_refl eq_refl eq_refl).
Defined.

(** C8.  When the codec fails to normalize a standalone image,
    [processStandaloneImage] returns the original path, and the image is
    kept: its descriptor is built on the original file.  When the codec
    succeeds, the path returned is that of the file written for the
    request "resize to 1024 by 1024, fit inside, without enlargement,
    as PNG", placed in the scratch directory. *)
Theorem C8_standalone_image_fallback (env : Env) (imagePath tempDir : string) :
  (forall e,
     sharp_toFile env imagePath resizeRequest Png
       (optimizedPathOf env imagePath tempDir) = Throw e ->
     processStandaloneImage env imagePath tempDir = imagePath /\
     processStandaloneImageFile env imagePath tempDir =
     Some {| description := generateImageDescription env imagePath;
             ImageProcessor.imagePath := imagePath;
             source := imagePath;
             pageNumber := None |}) /\
  (sharp_toFile env imagePath resizeRequest Png
     (optimizedPathOf env imagePath tempDir) = Ok tt ->
   processStandaloneImage env imagePath tempDir =
   path_join env tempDir ("optimized_" ++ path_basename env imagePath)) /\
  resizeRequest = {| resize_width := 1024; resize_height := 1024;
                     fit := FitInside; withoutEnlargement := true |}.
Proof.
  split; [|split; [|reflexivity]].
  - intros e H.
    assert (Hp : processStandaloneImage env imagePath tempDir = imagePath)
      by (unfold processStandaloneImage; simpl; rewrite H; reflexivity).
    split; [exact Hp|].
    unfold processStandaloneImageFile. simpl. rewrite Hp. reflexivity.
  - intros H. unfold processStandaloneImage. simpl. rewrite H. reflexivity.
Qed.

Lemma C8_standalone_image_fallback_witness :
  processStandaloneImage demo_env "/in/photo.png" "/tmp/lance-mcp-images" =
  "/in/photo.png" /\
  processStandaloneImage demo_env_codec_ok "/in/photo.png" "/tmp/lance-mcp-images" =
  "/tmp/lance-mcp-images/optimized_photo.png".
Proof.
  split.
  - exact (proj1 (proj1 (@C8_standalone_image_fallback demo_env
                           "/in/photo.png" "/tmp/lance-mcp-images")
                    (Failure "Input file contains unsupported image format")
                    eq_refl)).
  - exact (proj1 (proj2 (@C8_standalone_image_fallback demo_env_codec_ok
                           "/in/photo.png" "/tmp/lance-mcp-images"))
             eq_refl).
Defined.

Lemma resultToDocument_pageNumber (r : ImageProcessingResult) :
  get_opt (metadata (resultToDocument r)) "pageNumber" =
  match pageNumber r with
  | Some (S k) => JNum (Z.of_nat (S k))
  | _ => JUndefined
  end.
Proof.
  unfold resultToDocument. destruct (pageNumber r) as [[|k]|]; reflexivity.
Qed.

Lemma describe_pages_documents (env : Env) (pdfPath : string)
    (imagePaths : list string) (i : nat) :
  map (fun d => get_opt (metadata d) "pageNumber")
      (resultsToDocuments (describe_pages env pdfPath imagePaths i)) =
  map (fun k => JNum (Z.of_nat k)) (seq (i + 1) (List.length imagePaths)).
Proof.
  revert i. induction imagePaths as [|p rest IH]; intros i; [reflexivity|].
  cbn [describe_pages resultsToDocuments map List.length seq].
  f_equal.
  - rewrite resultToDocument_pageNumber. cbn [pageNumber].
    rewrite Nat.add_1_r. reflexivity.
  - specialize (IH (S i)). unfold resultsToDocuments in IH.
    rewrite IH. reflexivity.
Qed.

(** C9.  For a PDF the pipeline gives one result per page image that the
    rasterizer stored, in page order: the image paths of the results are
    exactly the files the rasterizer reports, the i-th result (counting
    from 1) has [pageNumber] i and the PDF as [source], and the documents
    built from the results carry the same [pageNumber].  When the
    rasterizer stored every page, there are as many results as pages and
    the result of page i has the file of page i as [imagePath] and i as
    [pageNumber].  For a standalone image the result has no [pageNumber],
    the image as [source] and the processed image as [imagePath]. *)
Theorem C9_image_descriptors (env : Env) (pdfPath imagePath tempDir : string) :
  let pages := extractImagesFromPDF env pdfPath tempDir in
  let results := processImagesFromPDF env pdfPath tempDir in
  List.length results = List.length pages /\
  map pageNumber results = map Some (seq 1 (List.length pages)) /\
  map ImageProcessor.imagePath results = pages /\
  Forall (fun r => source r = pdfPath) results /\
  map (fun d => get_opt (metadata d) "pageNumber") (resultsToDocuments results) =
  map (fun i => JNum (Z.of_nat i)) (seq 1 (List.length pages)) /\
  (exists r,
     processStandaloneImageFile env imagePath tempDir = Some r /\
     pageNumber r = None /\
     source r = imagePath /\
     ImageProcessor.imagePath r = processStandaloneImage env imagePath tempDir /\
     get_opt (metadata (resultToDocument r)) "pageNumber" = JUndefined) /\
  (forall rasterized,
     pdf2pic_bulk env pdfPath (pdf2picOptions env pdfPath tempDir) = Ok rasterized ->
     pages = stored_pages rasterized /\
     map ImageProcessor.imagePath results = stored_pages rasterized /\
     map pageNumber results =
       map Some (seq 1 (List.length (filter stored rasterized))) /\
     (forallb stored rasterized = true ->
      List.length results = List.length rasterized /\
      forall i page,
        nth_error rasterized i = Some page ->
        exists r,
          nth_error results i = Some r /\
          path page = Some (ImageProcessor.imagePath r) /\
          pageNumber r = Some (i + 1) /\
          source r = pdfPath)).
Proof.
  intros pages results. subst results. unfold processImagesFromPDF. fold pages.
  split; [apply describe_pages_length|].
  split; [apply (describe_pages_pageNumber env pdfPath pages 0)|].
  split; [apply describe_pages_imagePath|].
  split; [apply describe_pages_source|].
  split; [apply describe_pages_documents|].
  split; [eexists; split; [reflexivity|]; repeat split|].
  intros rasterized Hbulk.
  assert (Hpages : pages = stored_pages rasterized)
    by exact (extractImagesFromPDF_stored env pdfPath tempDir Hbulk).
  split; [exact Hpages|].
  split; [rewrite describe_pages_imagePath; exact Hpages|].
  split.
  { rewrite (describe_pages_pageNumber env pdfPath pages 0), Hpages.
    unfold stored_pages. rewrite length_map. reflexivity. }
  intros Hall. rewrite describe_pages_length, Hpages, (stored_pages_all _ Hall).
  split; [apply length_map|].
  intros i page Hi.
  assert (Hst : stored page = true).
  { rewrite forallb_forall in Hall. apply Hall.
    exact (nth_error_In _ _ Hi). }
  eexists. split.
  - apply describe_pages_nth. apply map_nth_error. exact Hi.
  - cbn [ImageProcessor.imagePath pageNumber source].
    split; [exact (stored_path _ Hst)|]. split; reflexivity.
Qed.

Lemma C9_image_descriptors_witness :
  map ImageProcessor.imagePath
      (processImagesFromPDF demo_env "/in/report.pdf" "/tmp/lance-mcp-images") =
    ["/tmp/lance-mcp-images/report.1.png"; "/tmp/lance-mcp-images/report.2.png"] /\
  map pageNumber
      (processImagesFromPDF demo_env "/in/report.pdf" "/tmp/lance-mcp-images") =
    [Some 1; Some 2] /\
  List.length (processImagesFromPDF demo_env "/in/report.pdf" "/tmp/lance-mcp-images") = 2.
Proof.
  destruct (@C9_image_descriptors demo_env "/in/report.pdf" "/in/photo.png"
              "/tmp/lance-mcp-images")
    as (_ & _ & _ & _ & _ & _ & Hpages).
  destruct (Hpages _ eq_refl) as (_ & Hpaths & Hnumbers & Hall).
  split; [exact Hpaths|]. split; [exact Hnumbers|].
  exact (proj1 (Hall eq_refl)).
Defined.

End ImageProperties.

(* ================================================================== *)
(** * Properties of the chunk splitter *)

Module SplitterProperties.

Import TextSplitter.

Lemma substring_length (s : string) : forall n m,
  String.length (substring n m s) = Nat.min m (String.length s - n).
Proof.
  induction s as [|c s IH]; intros n m.
  - destruct n, m; reflexivity.
  - destruct n as [|n].
    + destruct m as [|m]; simpl; [reflexivity|].
      rewrite IH, Nat.sub_0_r. reflexivity.
    + simpl. apply IH.
Qed.

Lemma substring_get (s : string) (n m p : nat) :
  String.get p (substring n m s) =
  if Nat.ltb p m then String.get (p + n) s else None.
Proof.
  destruct (Nat.ltb p m) eqn:H.
  - apply Nat.ltb_lt in H. now apply substring_correct1.
  - apply Nat.ltb_ge in H. now apply substring_correct2.
Qed.

Lemma get_Some_lt (s : string) : forall p c,
  String.get p s = Some c -> p < String.length s.
Proof.
  induction s as [|a s IH]; intros p c H; simpl in *; [discriminate|].
  destruct p; [lia|]. apply IH in H. lia.
Qed.

Lemma nth_error_map_seq {A} (f : nat -> A) (n i : nat) :
  nth_error (map f (seq 0 n)) i = if Nat.ltb i n then Some (f i) else None.
Proof.
  destruct (Nat.ltb i n) eqn:H.
  - rewrite nth_error_map, nth_error_seq, H. reflexivity.
  - apply Nat.ltb_ge in H. apply nth_error_None.
    rewrite length_map, length_seq. exact H.
Qed.

Section Windows.
Variables size overlap : nat.
Hypothesis Hov : overlap < size.
Let stride := size - overlap.

Ltac divide a :=
  let Hs := fresh "Hs" in
  assert (Hs : stride <> 0) by (subst stride; lia);
  pose proof (Nat.div_mod_eq a stride);
  pose proof (Nat.mod_upper_bound a stride Hs).

(** Every window starts inside the text, and more than [overlap]
    characters before its end when one window is not enough. *)
Lemma window_start (len i : nat) :
  0 < len -> i < window_count size stride len ->
  i * stride < len /\ (size < len -> i * stride + overlap < len).
Proof.
  intros Hlen Hi. unfold window_count in Hi.
  destruct (Nat.leb len size) eqn:Hle.
  - apply Nat.leb_le in Hle. assert (i = 0) by lia. subst i. simpl. lia.
  - apply Nat.leb_gt in Hle. divide (len - size + stride - 1).
    set (q := (len - size + stride - 1) / stride) in *.
    assert (i * stride <= q * stride) by (apply Nat.mul_le_mono_r; lia).
    subst stride. nia.
Qed.

(** A window that is not the last lies wholly inside the text. *)
Lemma window_full (len i : nat) :
  S i < window_count size stride len -> i * stride + size <= len.
Proof.
  intros Hi. unfold window_count in Hi.
  destruct (Nat.leb len size) eqn:Hle; [lia|].
  apply Nat.leb_gt in Hle. divide (len - size + stride - 1).
  set (q := (len - size + stride - 1) / stride) in *.
  assert (S i * stride <= q * stride) by (apply Nat.mul_le_mono_r; lia).
  subst stride. nia.
Qed.

(** Every position of the text lies in some window. *)
Lemma window_cover (len p : nat) :
  p < len ->
  exists i, i < window_count size stride len /\
            i * stride <= p < i * stride + size.
Proof.
  intros Hp. unfold window_count.
  destruct (Nat.leb len size) eqn:Hle.
  - apply Nat.leb_le in Hle. exists 0. simpl. lia.
  - apply Nat.leb_gt in Hle. divide (len - size + stride - 1).
    set (q := (len - size + stride - 1) / stride) in *.
    divide p. set (qp := p / stride) in *.
    destruct (Nat.le_gt_cases qp q) as [Hq|Hq].
    + exists qp. subst stride. nia.
    + exists q.
      assert (S q * stride <= qp * stride) by (apply Nat.mul_le_mono_r; lia).
      subst stride. nia.
Qed.

Let sp := {| chunkSize := size; chunkOverlap := overlap |}.

Lemma splitText_nth (text : string) (i : nat) :
  nth_error (splitText sp text) i =
  if is_empty text then None
  else if Nat.ltb i (window_count size stride (String.length text))
       then Some (substring (i * stride) size text)
       else None.
Proof.
  unfold splitText. simpl. fold stride.
  destruct (is_empty text); [destruct i; reflexivity|].
  apply (nth_error_map_seq (fun i => substring (i * stride) size text)).
Qed.

Lemma splitText_window (text : string) (i : nat) (w : string) :
  nth_error (splitText sp text) i = Some w ->
  w = substring (i * stride) size text /\
  0 < String.length w <= size /\
  (size < String.length text -> overlap < String.length w).
Proof.
  rewrite splitText_nth. intros H.
  destruct text as [|c rest] eqn:Ht; [discriminate H|]. rewrite <- Ht in *.
  simpl in H. replace (is_empty text) with false in H by (subst; reflexivity).
  destruct (Nat.ltb i _) eqn:Hi; [|discriminate H].
  apply Nat.ltb_lt in Hi. injection H as <-.
  assert (Hlen : 0 < String.length text) by (subst text; simpl; lia).
  destruct (@window_start (String.length text) i Hlen Hi) as [H1 H2].
  split; [reflexivity|]. rewrite substring_length.
  split; [lia|]. intros Hlong. specialize (H2 Hlong). lia.
Qed.

Lemma splitText_overlap (text : string) (i : nat) (w w' : string) :
  nth_error (splitText sp text) i = Some w ->
  nth_error (splitText sp text) (S i) = Some w' ->
  String.length w = size /\
  overlap < String.length w' /\
  substring stride overlap w = substring 0 overlap w'.
Proof.
  intros Hw Hw'.
  destruct (@splitText_window text (S i) w' Hw') as (-> & _ & Hlong).
  rewrite splitText_nth in Hw, Hw'.
  destruct (is_empty text); [discriminate Hw|].
  destruct (Nat.ltb i _) eqn:Hi; [|discriminate Hw].
  destruct (Nat.ltb (S i) _) eqn:HSi; [|discriminate Hw'].
  injection Hw as <-. clear Hw'.
  apply Nat.ltb_lt in HSi. pose proof (@window_full (String.length text) i HSi) as Hfull.
  assert (Hfit : size < String.length text).
  { unfold window_count in HSi.
    destruct (Nat.leb (String.length text) size) eqn:Hle; [lia|].
    now apply Nat.leb_gt in Hle. }
  rewrite substring_length.
  split; [lia|]. split; [exact (Hlong Hfit)|].
  apply get_correct. intros p. rewrite !substring_get.
  destruct (Nat.ltb p overlap) eqn:Hp; [|reflexivity].
  apply Nat.ltb_lt in Hp.
  replace (Nat.ltb (p + stride) size) with true
    by (symmetry; apply Nat.ltb_lt; subst stride; lia).
  replace (Nat.ltb (p + 0) size) with true
    by (symmetry; apply Nat.ltb_lt; lia).
  f_equal. simpl. lia.
Qed.

Lemma splitText_cover (text : string) (p : nat) (c : ascii) :
  String.get p text = Some c ->
  exists i w, nth_error (splitText sp text) i = Some w /\
              i * stride <= p /\
              String.get (p - i * stride) w = Some c.
Proof.
  intros Hget. pose proof (@get_Some_lt text p c Hget) as Hp.
  destruct (@window_cover (String.length text) p Hp) as (i & Hi & Hlo & Hhi).
  exists i, (substring (i * stride) size text).
  rewrite splitText_nth.
  destruct text as [|a rest] eqn:Ht; [simpl in Hp; lia|]. rewrite <- Ht in *.
  replace (is_empty text) with false by (subst; reflexivity).
  apply Nat.ltb_lt in Hi. rewrite Hi.
  split; [reflexivity|]. split; [exact Hlo|].
  rewrite substring_get.
  replace (Nat.ltb (p - i * stride) size) with true
    by (symmetry; apply Nat.ltb_lt; lia).
  rewrite Nat.sub_add by exact Hlo. exact Hget.
Qed.

End Windows.

Lemma splitDocuments_app (sp : RecursiveCharacterTextSplitter)
    (docs1 docs2 : list Document) :
  splitDocuments sp (docs1 ++ docs2) =
  (splitDocuments sp docs1 ++ splitDocuments sp docs2)%list.
Proof. apply flat_map_app. Qed.

Lemma splitDocuments_one (sp : RecursiveCharacterTextSplitter) (doc : Document) :
  map pageContent (splitDocuments sp [doc]) = splitText sp (pageContent doc) /\
  Forall (fun chunk => metadata chunk = metadata doc) (splitDocuments sp [doc]).
Proof.
  unfold splitDocuments. simpl. rewrite app_nil_r. split.
  - rewrite map_map. simpl. apply map_id.
  - apply Forall_forall. intros chunk Hin.
    apply in_map_iff in Hin. destruct Hin as (c & <- & _). reflexivity.
Qed.

End SplitterProperties.

(* ================================================================== *)
(** * Properties of ingestion *)

Module SeedProperties.

Import ImageProcessor TextSplitter Seed.

(** Some row of [rows] has [h] in its [hash] column. *)
Definition has_hash (rows : list Document) (h : string) : Prop :=
  exists row, In row rows /\ column row "hash" = JStr h.

Lemma matches_hash (h : string) (row : Document) :
  matches (ColEq "hash" h) row = true <-> column row "hash" = JStr h.
Proof.
  unfold matches, strict_eq_string.
  destruct (column row "hash"); split; intros H; try discriminate H.
  - apply String.eqb_eq in H. now subst.
  - injection H as ->. apply String.eqb_refl.
Qed.

Lemma firstn_1_nonempty {A} (l : list A) :
  Nat.ltb 0 (List.length (firstn 1 l)) = true <-> exists x, In x l.
Proof.
  destruct l as [|x l]; simpl; split; intros H.
  - discriminate H.
  - destruct H as [x []].
  - exists x. now left.
  - reflexivity.
Qed.

Lemma query_hash_found (rows : list Document) (h : string) :
  Nat.ltb 0 (List.length (firstn 1 (filter (matches (ColEq "hash" h)) rows))) = true
  <-> has_hash rows h.
Proof.
  rewrite firstn_1_nonempty. unfold has_hash.
  split; intros [row H]; exists row.
  - apply filter_In in H. now rewrite <- matches_hash.
  - apply filter_In. now rewrite matches_hash.
Qed.

Lemma catalogRecordExists_catalog (h : string) (db : Db) (rows : list Document) :
  catalog db = Some rows ->
  catalogRecordExists (Some CATALOG_TABLE_NAME) h db =
  (Ok (Nat.ltb 0 (List.length (firstn 1 (filter (matches (ColEq "hash" h)) rows)))),
   logged db (CATALOG_TABLE_NAME, ColEq "hash" h)).
Proof.
  intros Hc. unfold catalogRecordExists, bindM, query_where_limit. simpl.
  rewrite Hc. reflexivity.
Qed.

(** What the two [openTable] attempts of [seed] leave in its variables. *)
Lemma openCatalogTable_run (db : Db) :
  openCatalogTable db =
  (Ok (match catalog db with
       | Some _ => (Some CATALOG_TABLE_NAME, true)
       | None => (None, false)
       end), db).
Proof.
  unfold openCatalogTable, tryM, bindM, openTable. simpl.
  destruct (catalog db); reflexivity.
Qed.

Lemma openChunksTable_run (db : Db) :
  openChunksTable db =
  (Ok (match chunks db with
       | Some _ => Some CHUNKS_TABLE_NAME
       | None => None
       end), db).
Proof.
  unfold openChunksTable, tryM, bindM, openTable. simpl.
  destruct (chunks db); reflexivity.
Qed.

(** Grouping documents that all come from one file. *)
Definition from_source (s : string) (doc : Document) : Prop :=
  get_opt (metadata doc) "source" = JStr s /\ nullish (metadata doc) = false.

Lemma docsBySource_one_source (s : string) (docs : list Document) :
  Forall (from_source s) docs ->
  forall first, docsBySource docs [(s, first)] = Ok [(s, (first ++ docs)%list)].
Proof.
  induction 1 as [|doc rest [Hs Hm] _ IH]; intros first; simpl.
  - now rewrite app_nil_r.
  - unfold get. rewrite Hm. simpl. rewrite Hs. simpl.
    rewrite String.eqb_refl, IH, <- app_assoc. reflexivity.
Qed.

Section WithEnv.
Variable env : Env.

(** C1.  The deduplication check of [processDocuments], with the flag
    that [seed] passes.  When an overwrite is requested or the catalog
    table does not exist, the answer is "no skip" and the database is
    left as it was, its query log included: no query is run, whatever
    the table handle.  Otherwise one equality query on the [hash]
    column is run against the catalog table, and the answer is "skip"
    exactly when some row has the given hash in that column.  So a file
    whose content hashes to the hash of a cataloged row is skipped,
    whatever its path and the path recorded in the row.  ([seed] holds
    the catalog handle and the flag "exists" exactly when opening the
    table succeeded.) *)
Theorem C1_catalog_dedup_check (overwrite catalogTableExists : bool)
    (catalogTable : option TableName) (hash : string) (db : Db) :
  (overwrite = true \/ catalogTableExists = false ->
   existsCheck (skipExistsCheckOf overwrite catalogTableExists)
     catalogTable hash db = (Ok false, db)) /\
  (forall rows,
     overwrite = false -> catalogTableExists = true ->
     catalogTable = Some CATALOG_TABLE_NAME ->
     catalog db = Some rows ->
     exists skip,
       existsCheck (skipExistsCheckOf overwrite catalogTableExists)
         catalogTable hash db =
       (Ok skip, logged db (CATALOG_TABLE_NAME, ColEq "hash" hash)) /\
       (skip = true <-> has_hash rows hash)) /\
  (forall rows content pathB docsB,
     catalog db = Some rows ->
     has_hash rows (sha256_hex env content) ->
     readFile env pathB = Ok content ->
     docsB <> [] ->
     Forall (from_source pathB) docsB ->
     processDocuments env docsB (Some CATALOG_TABLE_NAME)
       (skipExistsCheckOf false true) db =
     (Ok {| skipSources := [pathB]; catalogRecords := [] |},
      logged db (CATALOG_TABLE_NAME, ColEq "hash" (sha256_hex env content)))) /\
  openCatalogTable db =
  (Ok (match catalog db with
       | Some _ => (Some CATALOG_TABLE_NAME, true)
       | None => (None, false)
       end), db).
Proof.
  split; [|split; [|split; [|apply openCatalogTable_run]]].
  - intros [-> | ->]; [reflexivity|].
    destruct overwrite; reflexivity.
  - intros rows -> -> -> Hc.
    unfold existsCheck, skipExistsCheckOf. cbn [orb negb].
    rewrite (catalogRecordExists_catalog hash db Hc).
    eexists. split; [reflexivity|]. apply query_hash_found.
  - intros rows content pathB docsB Hc Hh Hread Hne Hsrc.
    destruct docsB as [|doc rest]; [contradiction Hne; reflexivity|].
    unfold processDocuments, bindM, lift.
    inversion Hsrc as [|d r [Hs Hm] Hrest]; subst.
    cbn [docsBySource]. unfold get. rewrite Hm. cbn [bind].
    rewrite Hs. cbn [to_string group_push].
    rewrite (docsBySource_one_source Hrest [doc]).
    cbn [process_sources]. unfold bindM, lift. rewrite Hread.
    unfold existsCheck, skipExistsCheckOf. cbn [orb negb].
    rewrite (catalogRecordExists_catalog (sha256_hex env content) db Hc).
    apply query_hash_found in Hh. rewrite Hh. reflexivity.
Qed.

(** ** The report of a run *)

(** The rows of a table, none when the table does not exist. *)
Definition rows_of (t : option Table) : list Document :=
  match t with
  | Some rows => rows
  | None => []
  end.

Definition handle_of (db : Db) : option TableName :=
  match catalog db with
  | Some _ => Some CATALOG_TABLE_NAME
  | None => None
  end.

Definition exists_of (db : Db) : bool :=
  match catalog db with
  | Some _ => true
  | None => false
  end.

Definition kept_docs (rawDocs : list Document) (skip : list string)
  : list Document :=
  filter (fun doc => negb (includes_val skip (get_opt (metadata doc) "source")))
         rawDocs.

Definition report_of (rawDocs : list Document) (p : Processed) : Report :=
  {| processed := p;
     textDocs := splitDocuments splitter (kept_docs rawDocs (skipSources p));
     imageDocuments := processImages env rawDocs (skipSources p) |}.

Lemma dropTables_ok (overwrite : bool) (db : Db) :
  exists db1, dropTables overwrite db = (Ok tt, db1).
Proof.
  unfold dropTables, tryM, bindM, dropTable, ret.
  destruct overwrite; [|eauto].
  destruct (table_of db CATALOG_TABLE_NAME); [|eauto].
  destruct (table_of (set_table db CATALOG_TABLE_NAME None) CHUNKS_TABLE_NAME);
    eauto.
Qed.

Lemma store_ok (docs : list Document) (overwrite : bool) (n : TableName) (db : Db) :
  exists db1, store docs overwrite n db = (Ok tt, db1).
Proof.
  unfold store, fromDocuments, ret.
  destruct (is_nil docs); [eauto|].
  destruct (modeOf overwrite) as [[]|]; eauto.
Qed.

(** In either mode, the report of a run that went through is computed
    from the stripped documents and the outcome of [processDocuments]. *)
Lemma seed_report (overwrite : bool) (db db' : Db) (r : Report) :
  seed env overwrite db = (Ok r, db') ->
  exists loaded rawDocs,
    directoryLoader_load env = Ok loaded /\
    strip_all loaded = Ok rawDocs /\
    r = report_of rawDocs (processed r).
Proof.
  unfold seed, bindM at 1. rewrite openCatalogTable_run.
  unfold bindM at 1. rewrite openChunksTable_run.
  unfold bindM at 1.
  destruct (dropTables_ok overwrite db) as [db1 ->].
  unfold bindM at 1, lift at 1.
  destruct (directoryLoader_load env) as [loaded|e] eqn:Hload; [|discriminate].
  unfold bindM at 1, lift at 1.
  destruct (strip_all loaded) as [rawDocs|e] eqn:Hstrip; [|discriminate].
  unfold bindM at 1.
  destruct (processDocuments env rawDocs _ _ db1) as [[p|e] db2]; [|discriminate].
  unfold bindM at 1.
  destruct (store_ok (catalogRecords p) overwrite CATALOG_TABLE_NAME db2) as [db3 ->].
  unfold bindM at 1.
  match goal with
  | |- context [store ?docs overwrite CHUNKS_TABLE_NAME db3] =>
      destruct (store_ok docs overwrite CHUNKS_TABLE_NAME db3) as [db4 ->]
  end.
  intros [= <- _]. exists loaded, rawDocs.
  split; [reflexivity|]. split; [exact Hstrip | reflexivity].
Qed.

(** ** The loop over the sources *)

Lemma existsCheck_tables (flag : bool) (handle : option TableName)
    (h : string) (db db' : Db) (r : Result bool) :
  existsCheck flag handle h db = (r, db') ->
  catalog db' = catalog db /\ chunks db' = chunks db.
Proof.
  unfold existsCheck, catalogRecordExists, bindM, query_where_limit, ret, throw.
  destruct flag; [intros [= _ <-]; auto|].
  destruct handle as [t|]; [|intros [= _ <-]; auto].
  destruct (table_of db t); intros [= _ <-]; auto.
Qed.

Lemma process_sources_tables (groups : list (string * list Document))
    (handle : option TableName) (flag : bool) :
  forall skip recs db r db',
    process_sources env groups handle flag skip recs db = (r, db') ->
    catalog db' = catalog db /\ chunks db' = chunks db.
Proof.
  induction groups as [|[source docs] rest IH]; intros skip recs db r db' H.
  - injection H as _ <-. auto.
  - cbn [process_sources] in H. unfold bindM at 1, lift at 1 in H.
    destruct (readFile env source) as [content|e];
      [|injection H as _ <-; auto].
    unfold bindM at 1 in H.
    destruct (existsCheck flag handle (sha256_hex env content) db)
      as [[b|e] db1] eqn:Hc;
      apply existsCheck_tables in Hc; destruct Hc as [Hc1 Hc2].
    + destruct b.
      * apply IH in H. destruct H. split; congruence.
      * unfold bindM at 1, lift at 1 in H.
        destruct (summarize env docs) as [ov|e].
        -- apply IH in H. destruct H. split; congruence.
        -- injection H as _ <-. auto.
    + injection H as _ <-. auto.
Qed.



(** ** The documents of skipped sources *)

Lemma group_push_keys (k : string) (doc : Document)
    (acc : list (string * list Document)) (k' : string) :
  In k' (map fst (group_push k doc acc)) <-> k' = k \/ In k' (map fst acc).
Proof.
  induction acc as [|[k0 ds] rest IH]; simpl.
  - intuition.
  - destruct (String.eqb k0 k) eqn:Hk; simpl.
    + apply String.eqb_eq in Hk. subst. intuition.
    + rewrite IH. intuition.
Qed.








(** ** A run over sources that are all in the catalog *)










End WithEnv.

(** ** Runs on the demonstration machine *)

Definition empty_db : Db :=
  {| catalog := None; chunks := None; queryLog := [] |}.

(** A catalog that knows the content of [report.pdf] under another path. *)
Definition old_catalog_db : Db :=
  {| catalog := Some [ {| pageContent := "An old overview.";
                          metadata := JObj [("source", JStr "/old/annual.pdf");
                                            ("hash", JStr "sha256:%PDF-report")] |} ];
     chunks := None;
     queryLog := [] |}.

Definition report_doc : Document :=
  {| pageContent := "first page of the report";
     metadata := JObj [("loc", JObj [("pageNumber", JNum 1)]);
                       ("source", JStr "/in/report.pdf")] |}.

Lemma C1_catalog_dedup_check_witness :
  existsCheck (skipExistsCheckOf true true) (Some CATALOG_TABLE_NAME)
    "sha256:%PDF-report" old_catalog_db = (Ok false, old_catalog_db) /\
  (exists skip,
     existsCheck (skipExistsCheckOf false true) (Some CATALOG_TABLE_NAME)
       "sha256:%PDF-report" old_catalog_db =
     (Ok skip, logged old_catalog_db
                 (CATALOG_TABLE_NAME, ColEq "hash" "sha256:%PDF-report")) /\
     (skip = true <-> has_hash (rows_of (catalog old_catalog_db)) "sha256:%PDF-report")) /\
  processDocuments ImageProperties.demo_env [report_doc] (Some CATALOG_TABLE_NAME)
    (skipExistsCheckOf false true) old_catalog_db =
  (Ok {| skipSources := ["/in/report.pdf"]; catalogRecords := [] |},
   logged old_catalog_db (CATALOG_TABLE_NAME, ColEq "hash" "sha256:%PDF-report")).
Proof.
  split; [|split].
  - exact (proj1 (@C1_catalog_dedup_check ImageProperties.demo_env true true
                    (Some CATALOG_TABLE_NAME) "sha256:%PDF-report" old_catalog_db)
             (or_introl eq_refl)).
  - exact (proj1 (proj2 (@C1_catalog_dedup_check ImageProperties.demo_env false true
                           (Some CATALOG_TABLE_NAME) "sha256:%PDF-report"
                           old_catalog_db))
             _ eq_refl eq_refl eq_refl eq_refl).
  - refine (proj1 (proj2 (proj2 (@C1_catalog_dedup_check ImageProperties.demo_env
                                   false true (Some CATALOG_TABLE_NAME) ""
                                   old_catalog_db)))
              _ "%PDF-report" "/in/report.pdf" [report_doc] eq_refl _ eq_refl _ _).
    + eexists. split; [left; reflexivity | reflexivity].
    + discriminate.
    + repeat constructor.
Defined.

Definition report_or_empty (run : Result Report * Db) : Report :=
  match fst run with
  | Ok r => r
  | Throw _ => {| processed := {| skipSources := []; catalogRecords := [] |};
                  textDocs := []; imageDocuments := [] |}
  end.









End SeedProperties.

(* ================================================================== *)
(** * Chunking in a run *)

Module ChunkingProperties.

Import TextSplitter SplitterProperties.

Fixpoint repeat_text (n : nat) (s : string) : string :=
  match n with
  | 0 => ""
  | S k => s ++ repeat_text k s
  end.

(** A text of 600 characters. *)
Definition demo_text : string := repeat_text 60 "0123456789".

(** C6.  With the parameters of [seed] (500 and 10), the i-th chunk of a
    text is its window of 500 characters starting at character 490 * i:
    it is not empty and has at most 500 characters; a chunk that has a
    successor has exactly 500 characters and its last 10 characters are
    the first 10 of the successor; every character of the text lies in
    some chunk.  The chunks of a document carry its metadata, the chunks
    of a list of documents come in the order of the documents, and the
    outcome depends on the text and the two parameters only.  In a run,
    the splitter is given the stripped documents whose source was not
    skipped, in their order. *)
Theorem C6_chunk_splitter (text : string) :
  chunkSize Seed.splitter = 500 /\
  chunkOverlap Seed.splitter = 10 /\
  (forall i w,
     nth_error (splitText Seed.splitter text) i = Some w ->
     w = substring (i * 490) 500 text /\
     0 < String.length w <= 500 /\
     (forall w',
        nth_error (splitText Seed.splitter text) (S i) = Some w' ->
        String.length w = 500 /\
        10 < String.length w' /\
        substring 490 10 w = substring 0 10 w')) /\
  (forall p c,
     String.get p text = Some c ->
     exists j v, nth_error (splitText Seed.splitter text) j = Some v /\
                 j * 490 <= p /\
                 String.get (p - j * 490) v = Some c) /\
  (forall doc,
     map pageContent (splitDocuments Seed.splitter [doc]) =
     splitText Seed.splitter (pageContent doc) /\
     Forall (fun chunk => metadata chunk = metadata doc)
            (splitDocuments Seed.splitter [doc])) /\
  (forall docs1 docs2,
     splitDocuments Seed.splitter (docs1 ++ docs2) =
     (splitDocuments Seed.splitter docs1 ++ splitDocuments Seed.splitter docs2)%list) /\
  (forall sp' : RecursiveCharacterTextSplitter,
     chunkSize sp' = 500 -> chunkOverlap sp' = 10 ->
     splitText sp' text = splitText Seed.splitter text) /\
  (forall env overwrite db r db',
     Seed.seed env overwrite db = (Ok r, db') ->
     exists loaded rawDocs,
       directoryLoader_load env = Ok loaded /\
       Seed.strip_all loaded = Ok rawDocs /\
       Seed.textDocs r =
       splitDocuments Seed.splitter
         (filter (fun doc =>
                    negb (Seed.includes_val (Seed.skipSources (Seed.processed r))
                            (get_opt (metadata doc) "source")))
                 rawDocs)).
Proof.
  assert (Hov : 10 < 500) by lia.
  assert (H490 : 500 - 10 = 490) by reflexivity.
  split; [reflexivity|]. split; [reflexivity|].
  split.
  { intros i w Hw.
    pose proof (@splitText_window 500 10 Hov text i w Hw) as (Hwin & Hlen & _).
    rewrite H490 in Hwin.
    split; [exact Hwin|]. split; [exact Hlen|].
    intros w' Hw'.
    pose proof (@splitText_overlap 500 10 Hov text i w w' Hw Hw') as H.
    rewrite H490 in H. exact H. }
  split.
  { intros p c Hget.
    pose proof (@splitText_cover 500 10 Hov text p c Hget) as H.
    rewrite H490 in H. exact H. }
  split; [intros doc; apply splitDocuments_one|].
  split; [intros docs1 docs2; apply splitDocuments_app|].
  split.
  { intros [size' overlap'] Hs Ho. simpl in Hs, Ho. subst. reflexivity. }
  intros env overwrite db r db' Hrun.
  destruct (SeedProperties.seed_report _ _ _ Hrun)
    as (loaded & rawDocs & Hload & Hstrip & Hr).
  exists loaded, rawDocs. split; [exact Hload|]. split; [exact Hstrip|].
  rewrite Hr at 1. reflexivity.
Qed.

Lemma C6_chunk_splitter_witness :
  nth_error (splitText Seed.splitter demo_text) 0 =
    Some (substring 0 500 demo_text) /\
  nth_error (splitText Seed.splitter demo_text) 1 =
    Some (substring 490 500 demo_text) /\
  String.length (substring 0 500 demo_text) = 500 /\
  10 < String.length (substring 490 500 demo_text) /\
  substring 490 10 (substring 0 500 demo_text) =
  substring 0 10 (substring 490 500 demo_text).
Proof.
  assert (H0 : nth_error (splitText Seed.splitter demo_text) 0 =
               Some (substring 0 500 demo_text)) by (vm_compute; reflexivity).
  assert (H1 : nth_error (splitText Seed.splitter demo_text) 1 =
               Some (substring 490 500 demo_text)) by (vm_compute; reflexivity).
  split; [exact H0|]. split; [exact H1|].
  exact (proj2 (proj2 (proj1 (proj2 (proj2 (C6_chunk_splitter demo_text)))
                         0 (substring 0 500 demo_text) H0))
           (substring 490 500 demo_text) H1).
Defined.

End ChunkingProperties.

(* ================================================================== *)
(** * Further properties of the search tools *)

Module SearchExtras.

Import SearchProperties.

Lemma sapp_assoc (a b c : string) : (a ++ b) ++ c = a ++ (b ++ c).
Proof. induction a as [|x a IH]; simpl; [reflexivity | now rewrite IH]. Qed.

Lemma sapp_nil_l (a : string) : "" ++ a = a.
Proof. reflexivity. Qed.

Lemma sapp_nil_r (a : string) : a ++ "" = a.
Proof. induction a as [|x a IH]; simpl; [reflexivity | now rewrite IH]. Qed.

(** ** What one hit appends does not depend on what is already there *)

Lemma chunks_append_result_acc (acc : string) (hit : Document) (i : nat) :
  ChunksSearchTool.append_result acc hit i =
  (b <- ChunksSearchTool.append_result "" hit i ;; Ok (acc ++ b)).
Proof.
  unfold ChunksSearchTool.append_result.
  destruct (if truthy (get_opt (metadata hit) "source")
            then split_pop (get_opt (metadata hit) "source")
            else Ok (JStr "Unknown file")) as [fileName|e]; [|reflexivity].
  cbn [bind].
  destruct (ChunksSearchTool.extractPageInfo (get_opt (metadata hit) "loc"))
    as [pageInfo|e]; [|reflexivity].
  cbn [bind]. f_equal.
  cbv zeta.
  destruct (truthy (get_opt (metadata hit) "source"));
    rewrite ?sapp_assoc, ?sapp_nil_l; reflexivity.
Qed.

Lemma catalog_append_result_acc (acc : string) (hit : Document) (i : nat) :
  CatalogSearchTool.append_result acc hit i =
  (b <- CatalogSearchTool.append_result "" hit i ;; Ok (acc ++ b)).
Proof.
  unfold CatalogSearchTool.append_result.
  destruct (if truthy (get_opt (metadata hit) "source")
            then split_pop (get_opt (metadata hit) "source")
            else Ok (JStr "Unknown file")) as [fileName|e]; [|reflexivity].
  cbn [bind]. f_equal.
  cbv zeta.
  destruct (truthy (get_opt (metadata hit) "source"));
    rewrite ?sapp_assoc, ?sapp_nil_l; reflexivity.
Qed.

Lemma chunks_forEach_app (hits1 hits2 : list Document) :
  forall i acc,
    ChunksSearchTool.forEach (hits1 ++ hits2)%list i acc =
    (out <- ChunksSearchTool.forEach hits1 i acc ;;
     ChunksSearchTool.forEach hits2 (i + List.length hits1) out).
Proof.
  induction hits1 as [|hit rest IH]; intros i acc; simpl.
  - now rewrite Nat.add_0_r.
  - destruct (ChunksSearchTool.append_result acc hit i) as [out|e];
      simpl; [|reflexivity].
    rewrite IH. now rewrite Nat.add_succ_r.
Qed.

Lemma chunks_forEach_acc (hits : list Document) :
  forall i acc,
    ChunksSearchTool.forEach hits i acc =
    (body <- ChunksSearchTool.forEach hits i "" ;; Ok (acc ++ body)).
Proof.
  induction hits as [|hit rest IH]; intros i acc; simpl.
  - now rewrite sapp_nil_r.
  - rewrite (chunks_append_result_acc acc).
    destruct (ChunksSearchTool.append_result "" hit i) as [b|e];
      simpl; [|reflexivity].
    rewrite (IH (S i) (acc ++ b)), (IH (S i) b).
    destruct (ChunksSearchTool.forEach rest (S i) "") as [body|e];
      simpl; [|reflexivity].
    now rewrite sapp_assoc.
Qed.

(** X1.  The output for a list of hits extends the output for any
    non-empty prefix of it: what follows are the blocks of the remaining
    hits, numbered on from the length of the prefix, and they do not
    depend on the text before them. *)
Theorem X1_format_extends_prefix (hits1 hits2 : list Document) :
  hits1 <> [] ->
  ChunksSearchTool.formatResultsWithReferences (Some (hits1 ++ hits2)%list) =
  (out <- ChunksSearchTool.formatResultsWithReferences (Some hits1) ;;
   body <- ChunksSearchTool.forEach hits2 (List.length hits1) "" ;;
   Ok (out ++ body)).
Proof.
  intros Hne. destruct hits1 as [|hit rest]; [contradiction Hne; reflexivity|].
  change (ChunksSearchTool.formatResultsWithReferences (Some ((hit :: rest) ++ hits2)%list))
    with (ChunksSearchTool.forEach ((hit :: rest) ++ hits2)%list 0
            ("Search Results:" ++ nl ++ nl)).
  change (ChunksSearchTool.formatResultsWithReferences (Some (hit :: rest)))
    with (ChunksSearchTool.forEach (hit :: rest) 0 ("Search Results:" ++ nl ++ nl)).
  rewrite chunks_forEach_app.
  destruct (ChunksSearchTool.forEach (hit :: rest) 0 _) as [out|e];
    [|reflexivity].
  cbn [bind]. rewrite Nat.add_0_l. apply chunks_forEach_acc.
Qed.

Lemma X1_format_extends_prefix_witness :
  ChunksSearchTool.formatResultsWithReferences (Some [hit_a; hit_b]) =
  (out <- ChunksSearchTool.formatResultsWithReferences (Some [hit_a]) ;;
   body <- ChunksSearchTool.forEach [hit_b] 1 "" ;;
   Ok (out ++ body)).
Proof.
  refine (@X1_format_extends_prefix [hit_a] [hit_b] _). discriminate.
Defined.

(** ** Hits the formatter cannot print *)

(** [metadata.source] is truthy but has no [split] method. *)
Definition unsplittable_source (hit : Document) : Prop :=
  truthy (get_opt (metadata hit) "source") = true /\
  typeof (get_opt (metadata hit) "source") <> TString.

Lemma split_pop_unsplittable (hit : Document) :
  unsplittable_source hit ->
  exists e, (if truthy (get_opt (metadata hit) "source")
             then split_pop (get_opt (metadata hit) "source")
             else Ok (JStr "Unknown file")) = Throw e.
Proof.
  intros [Ht Hs]. rewrite Ht.
  destruct (get_opt (metadata hit) "source"); simpl in *;
    try discriminate Ht; try (contradiction Hs; reflexivity); eauto.
Qed.

Lemma chunks_forEach_unsplittable (hits : list Document) (hit : Document) :
  In hit hits -> unsplittable_source hit ->
  forall i acc, exists e, ChunksSearchTool.forEach hits i acc = Throw e.
Proof.
  intros Hin Hbad. induction hits as [|h rest IH]; [destruct Hin|].
  intros i acc. simpl.
  destruct (ChunksSearchTool.append_result acc h i) as [out|e] eqn:Ha;
    [|simpl; eauto].
  destruct Hin as [-> | Hin]; [|simpl; apply IH; exact Hin].
  unfold ChunksSearchTool.append_result in Ha.
  destruct (split_pop_unsplittable Hbad) as [e He].
  rewrite He in Ha. discriminate Ha.
Qed.

Lemma catalog_forEach_unsplittable (hits : list Document) (hit : Document) :
  In hit hits -> unsplittable_source hit ->
  forall i acc, exists e, CatalogSearchTool.forEach hits i acc = Throw e.
Proof.
  intros Hin Hbad. induction hits as [|h rest IH]; [destruct Hin|].
  intros i acc. simpl.
  destruct (CatalogSearchTool.append_result acc h i) as [out|e] eqn:Ha;
    [|simpl; eauto].
  destruct Hin as [-> | Hin]; [|simpl; apply IH; exact Hin].
  unfold CatalogSearchTool.append_result in Ha.
  destruct (split_pop_unsplittable Hbad) as [e He].
  rewrite He in Ha. discriminate Ha.
Qed.

(** X2.  One retrieved hit whose source is truthy but not a string (a
    number, an object, [true]) makes the whole answer an error: no
    formatted text is returned for the other hits either.  This holds for
    [all_chunks_search], for [catalog_search] and for [chunks_search]
    called without a source. *)
Theorem X2_unsplittable_source_fails
    (retriever : string -> Result (list Document)) (txt : string)
    (hits : list Document) (hit : Document) :
  retriever txt = Ok hits ->
  In hit hits ->
  unsplittable_source hit ->
  (exists e, BroadSearchTool.execute retriever
               {| BroadSearchTool.text := txt |} = IsError e) /\
  (exists e, CatalogSearchTool.execute retriever
               {| CatalogSearchTool.text := txt |} = IsError e) /\
  (exists e, ChunksSearchTool.execute retriever
               {| ChunksSearchTool.text := txt;
                  ChunksSearchTool.source := None |} = IsError e).
Proof.
  intros Hret Hin Hbad.
  assert (Hne : exists h rest, hits = h :: rest)
    by (destruct hits as [|h rest]; [destruct Hin | eauto]).
  destruct Hne as (h & rest & ->).
  destruct (@chunks_forEach_unsplittable (h :: rest) hit Hin Hbad 0
              ("Search Results:" ++ nl ++ nl)) as [e1 H1].
  destruct (@catalog_forEach_unsplittable (h :: rest) hit Hin Hbad 0
              ("Search Results:" ++ nl ++ nl)) as [e2 H2].
  split; [|split].
  - exists e1. unfold BroadSearchTool.execute. cbn [BroadSearchTool.text].
    rewrite Hret. cbn [bind].
    change (BroadSearchTool.formatResultsWithReferences (Some (h :: rest)))
      with (BroadSearchTool.forEach (h :: rest) 0 ("Search Results:" ++ nl ++ nl)).
    rewrite forEach_same, H1. reflexivity.
  - exists e2. unfold CatalogSearchTool.execute. cbn [CatalogSearchTool.text].
    rewrite Hret. cbn [bind].
    change (CatalogSearchTool.formatResultsWithReferences (Some (h :: rest)))
      with (CatalogSearchTool.forEach (h :: rest) 0 ("Search Results:" ++ nl ++ nl)).
    rewrite H2. reflexivity.
  - exists e1. unfold ChunksSearchTool.execute.
    cbn [ChunksSearchTool.text ChunksSearchTool.source_provided
         ChunksSearchTool.source].
    rewrite Hret. cbn [bind].
    change (ChunksSearchTool.formatResultsWithReferences (Some (h :: rest)))
      with (ChunksSearchTool.forEach (h :: rest) 0 ("Search Results:" ++ nl ++ nl)).
    rewrite H1. reflexivity.
Qed.

Definition hit_numeric_source : Document :=
  {| pageContent := "gamma"; metadata := JObj [("source", JNum 7)] |}.

Lemma X2_unsplittable_source_fails_witness :
  exists e, BroadSearchTool.execute (fun _ => Ok [hit_a; hit_numeric_source])
              {| BroadSearchTool.text := "q" |} = IsError e.
Proof.
  refine (proj1 (@X2_unsplittable_source_fails
                   (fun _ => Ok [hit_a; hit_numeric_source]) "q"
                   [hit_a; hit_numeric_source] hit_numeric_source eq_refl _ _)).
  - right. left. reflexivity.
  - split; [reflexivity | discriminate].
Defined.

(** ** The file name shown for a hit *)

Fixpoint has_slash (s : string) : bool :=
  match s with
  | EmptyString => false
  | String c rest => if Ascii.eqb c "/" then true else has_slash rest
  end.

Lemma split_no_slash (s : string) :
  has_slash s = false -> split "/" s = [s].
Proof.
  induction s as [|c rest IH]; simpl; [reflexivity|].
  destruct (Ascii.eqb c "/"); [discriminate|].
  intros H. rewrite (IH H). reflexivity.
Qed.

Lemma split_not_nil (s : string) : split "/" s <> [].
Proof.
  induction s as [|c rest IH]; simpl; [discriminate|].
  destruct (Ascii.eqb c "/"); [discriminate|].
  destruct (split "/" rest); [contradiction IH; reflexivity | discriminate].
Qed.

Lemma last_cons (l : list string) :
  forall x y, last (y :: l) x = last l y.
Proof.
  induction l as [|z l IH]; intros x y; [reflexivity|].
  change (last (y :: z :: l) x) with (last (z :: l) x).
  rewrite (IH x z), (IH y z). reflexivity.
Qed.

Lemma pop_cons (x : string) (l : list string) :
  l <> [] -> pop (x :: l) = pop l.
Proof.
  destruct l as [|y l]; [intros H; contradiction H; reflexivity|].
  intros _. unfold pop. now rewrite last_cons.
Qed.

Lemma split_slash_two (dir name : string) :
  exists a b l, split "/" (dir ++ String "/" name) = a :: b :: l.
Proof.
  induction dir as [|c dir (a & b & l & IH)]; simpl.
  - destruct (split "/" name) as [|b l] eqn:Hs;
      [exfalso; exact (split_not_nil _ Hs) | eauto].
  - rewrite IH. destruct (Ascii.eqb c "/"); eauto.
Qed.

Lemma pop_split_after_slash (dir name : string) :
  pop (split "/" (dir ++ String "/" name)) = pop (split "/" name).
Proof.
  induction dir as [|c dir IH]; simpl.
  - apply pop_cons, split_not_nil.
  - destruct (Ascii.eqb c "/").
    + rewrite pop_cons; [exact IH | apply split_not_nil].
    + destruct (split_slash_two dir name) as (a & b & l & Hs).
      rewrite Hs in *. rewrite <- IH.
      rewrite (@pop_cons (String c a) (b :: l)), (@pop_cons a (b :: l))
        by discriminate.
      reflexivity.
Qed.

Lemma pop_split_basename (dir name : string) :
  has_slash name = false ->
  split_pop (JStr (dir ++ String "/" name)) = Ok (JStr name).
Proof.
  intros H. unfold split_pop. rewrite pop_split_after_slash.
  rewrite (@split_no_slash name H). reflexivity.
Qed.

Lemma truthy_path (dir name : string) :
  truthy (JStr (dir ++ String "/" name)) = true.
Proof. destruct dir; reflexivity. Qed.

(** X3.  For a hit whose source is a path [dir/name], the block the
    formatter appends shows [name] (the text after the last slash) as the
    file name, followed by the page annotation of the hit's location, and
    the whole path as the file path; the catalog formatter prints the
    same block without the annotation. *)
Theorem X3_result_block (acc dir name content : string)
    (meta : list (string * JsVal)) (info : option string) (i : nat) :
  has_slash name = false ->
  lookup "source" meta = JStr (dir ++ String "/" name) ->
  ChunksSearchTool.extractPageInfo (lookup "loc" meta) = Ok info ->
  ChunksSearchTool.append_result acc
    {| pageContent := content; metadata := JObj meta |} i =
  Ok (acc ++ "**Result " ++ string_of_nat (i + 1) ++ "**" ++ nl ++
      "📄 **Source**: " ++ name ++ ChunksSearchTool.page_annotation info ++ nl ++
      "🔗 **File Path**: " ++ dir ++ String "/" name ++ nl ++
      "📝 **Content**: " ++ content ++ nl ++ "---" ++ nl ++ nl) /\
  CatalogSearchTool.append_result acc
    {| pageContent := content; metadata := JObj meta |} i =
  Ok (acc ++ "**Result " ++ string_of_nat (i + 1) ++ "**" ++ nl ++
      "📄 **Source**: " ++ name ++ nl ++
      "🔗 **File Path**: " ++ dir ++ String "/" name ++ nl ++
      "📝 **Content**: " ++ content ++ nl ++ "---" ++ nl ++ nl).
Proof.
  intros Hname Hsrc Hloc. split.
  - unfold ChunksSearchTool.append_result. cbn [metadata pageContent get_opt].
    rewrite Hsrc, Hloc, truthy_path, (@pop_split_basename dir name Hname).
    cbn [bind to_string]. f_equal.
    rewrite ?sapp_assoc. reflexivity.
  - unfold CatalogSearchTool.append_result. cbn [metadata pageContent get_opt].
    rewrite Hsrc, truthy_path, (@pop_split_basename dir name Hname).
    cbn [bind to_string]. f_equal.
    rewrite ?sapp_assoc. reflexivity.
Qed.

Lemma X3_result_block_witness :
  ChunksSearchTool.append_result "" hit_b 1 =
  Ok ("**Result 2**" ++ nl ++ "📄 **Source**: b.pdf (Page 7)" ++ nl ++
      "🔗 **File Path**: /docs/b.pdf" ++ nl ++
      "📝 **Content**: beta" ++ nl ++ "---" ++ nl ++ nl).
Proof.
  exact (proj1 (@X3_result_block "" "/docs" "b.pdf" "beta"
                  [("loc", JObj [("pageNumber", JNum 7)]);
                   ("source", JStr "/docs/b.pdf")]
                  (Some "7") 1 eq_refl eq_refl eq_refl)).
Defined.

(** ** How the three tools relate *)

(** X4.  Called without a source, or with the empty string as source,
    [chunks_search] answers exactly as [all_chunks_search] does for the
    same retriever and query text. *)
Theorem X4_chunks_search_without_source
    (retriever : string -> Result (list Document)) (txt : string) :
  ChunksSearchTool.execute retriever
    {| ChunksSearchTool.text := txt; ChunksSearchTool.source := None |} =
  BroadSearchTool.execute retriever {| BroadSearchTool.text := txt |} /\
  ChunksSearchTool.execute retriever
    {| ChunksSearchTool.text := txt; ChunksSearchTool.source := Some "" |} =
  BroadSearchTool.execute retriever {| BroadSearchTool.text := txt |}.
Proof.
  unfold ChunksSearchTool.execute, BroadSearchTool.execute.
  cbn [ChunksSearchTool.text BroadSearchTool.text
       ChunksSearchTool.source_provided ChunksSearchTool.source is_empty negb].
  destruct (retriever txt) as [hits|e]; [|split; reflexivity].
  cbn [bind].
  assert (H : ChunksSearchTool.formatResultsWithReferences (Some hits) =
              BroadSearchTool.formatResultsWithReferences (Some hits)).
  { destruct hits as [|h rest]; [reflexivity|].
    symmetry. apply (forEach_same (h :: rest)). }
  rewrite H. split; reflexivity.
Qed.

(** The hit has no usable location: [metadata.loc] is falsy. *)
Definition no_location (hit : Document) : Prop :=
  truthy (get_opt (metadata hit) "loc") = false.

Lemma append_result_no_location (acc : string) (hit : Document) (i : nat) :
  no_location hit ->
  ChunksSearchTool.append_result acc hit i =
  CatalogSearchTool.append_result acc hit i.
Proof.
  intros Hloc.
  unfold ChunksSearchTool.append_result, CatalogSearchTool.append_result.
  destruct (if truthy (get_opt (metadata hit) "source")
            then split_pop (get_opt (metadata hit) "source")
            else Ok (JStr "Unknown file")) as [fileName|e]; [|reflexivity].
  cbn [bind]. unfold ChunksSearchTool.extractPageInfo.
  unfold no_location in Hloc. rewrite Hloc. cbn [negb bind].
  cbv zeta. cbn [ChunksSearchTool.page_annotation]. f_equal.
  destruct (truthy (get_opt (metadata hit) "source"));
    rewrite ?sapp_assoc, ?sapp_nil_l; reflexivity.
Qed.

Lemma forEach_no_location (hits : list Document) :
  Forall no_location hits ->
  forall i acc,
    ChunksSearchTool.forEach hits i acc = CatalogSearchTool.forEach hits i acc.
Proof.
  induction 1 as [|hit rest Hloc _ IH]; intros i acc; simpl; [reflexivity|].
  rewrite (@append_result_no_location acc hit i Hloc).
  destruct (CatalogSearchTool.append_result acc hit i); simpl;
    [apply IH | reflexivity].
Qed.

(** X5.  On hits that carry no location, the chunk formatter and the
    catalog formatter produce the same text: the page annotation is the
    only difference between the two. *)
Theorem X5_formatters_agree_without_location (hits : list Document) :
  Forall no_location hits ->
  ChunksSearchTool.formatResultsWithReferences (Some hits) =
  CatalogSearchTool.formatResultsWithReferences (Some hits) /\
  BroadSearchTool.formatResultsWithReferences (Some hits) =
  CatalogSearchTool.formatResultsWithReferences (Some hits).
Proof.
  intros H.
  assert (Hc : ChunksSearchTool.formatResultsWithReferences (Some hits) =
               CatalogSearchTool.formatResultsWithReferences (Some hits)).
  { destruct hits as [|h rest]; [reflexivity|].
    apply (@forEach_no_location (h :: rest) H). }
  split; [exact Hc|]. rewrite <- Hc.
  destruct hits as [|h rest]; [reflexivity|]. apply (forEach_same (h :: rest)).
Qed.

Definition catalog_hit : Document :=
  {| pageContent := "An overview.";
     metadata := JObj [("source", JStr "/docs/a.pdf"); ("hash", JStr "ab12")] |}.

Lemma X5_formatters_agree_without_location_witness :
  ChunksSearchTool.formatResultsWithReferences (Some [catalog_hit]) =
  CatalogSearchTool.formatResultsWithReferences (Some [catalog_hit]).
Proof.
  refine (proj1 (@X5_formatters_agree_without_location [catalog_hit] _)).
  repeat constructor.
Defined.

(** ** Hits without metadata *)

(** X6.  A hit whose metadata is missing (undefined or null) is printed
    by the formatter as "Unknown file", without a file path line and
    without a page annotation.  Given to [chunks_search] together with a
    non-empty source, the same hit makes the filter throw, and the answer
    is an error. *)
Theorem X6_hit_without_metadata (acc content : string) (meta : JsVal) (i : nat) :
  nullish meta = true ->
  ChunksSearchTool.append_result acc
    {| pageContent := content; metadata := meta |} i =
  Ok (acc ++ "**Result " ++ string_of_nat (i + 1) ++ "**" ++ nl ++
      "📄 **Source**: Unknown file" ++ nl ++
      "📝 **Content**: " ++ content ++ nl ++ "---" ++ nl ++ nl) /\
  (forall (retriever : string -> Result (list Document)) txt src hits,
     src <> "" ->
     retriever txt = Ok hits ->
     In {| pageContent := content; metadata := meta |} hits ->
     exists e,
       ChunksSearchTool.execute retriever
         {| ChunksSearchTool.text := txt; ChunksSearchTool.source := Some src |} =
       IsError e).
Proof.
  intros Hnull. split.
  - destruct meta; try discriminate Hnull;
      unfold ChunksSearchTool.append_result; cbn [metadata pageContent get_opt];
      cbn [truthy bind ChunksSearchTool.extractPageInfo negb
           ChunksSearchTool.page_annotation to_string];
      f_equal; rewrite ?sapp_assoc, ?sapp_nil_l; reflexivity.
  - intros retriever txt src hits Hsrc Hret Hin.
    unfold ChunksSearchTool.execute, ChunksSearchTool.source_provided.
    cbn [ChunksSearchTool.text ChunksSearchTool.source].
    rewrite Hret. cbn [bind].
    destruct src as [|c rest]; [contradiction Hsrc; reflexivity|].
    cbn [is_empty negb].
    destruct (ChunksSearchTool.filter_by_source (String c rest) hits)
      as [kept|e] eqn:Hf.
    + exfalso. apply filter_by_source_throws in Hf.
      rewrite Forall_forall in Hf. specialize (Hf _ Hin).
      unfold has_metadata in Hf. cbn [metadata] in Hf. congruence.
    + exists e. reflexivity.
Qed.

Definition hit_no_metadata : Document :=
  {| pageContent := "delta"; metadata := JUndefined |}.

Lemma X6_hit_without_metadata_witness :
  ChunksSearchTool.append_result "" hit_no_metadata 0 =
  Ok ("**Result 1**" ++ nl ++ "📄 **Source**: Unknown file" ++ nl ++
      "📝 **Content**: delta" ++ nl ++ "---" ++ nl ++ nl) /\
  exists e,
    ChunksSearchTool.execute (fun _ => Ok [hit_a; hit_no_metadata])
      {| ChunksSearchTool.text := "q";
         ChunksSearchTool.source := Some "/docs/a.pdf" |} = IsError e.
Proof.
  pose proof (@X6_hit_without_metadata "" "delta" JUndefined 0 eq_refl)
    as [Hfmt Hexec].
  split; [exact Hfmt|].
  refine (Hexec (fun _ => Ok [hit_a; hit_no_metadata]) "q" "/docs/a.pdf"
            [hit_a; hit_no_metadata] _ eq_refl _).
  - discriminate.
  - right. left. reflexivity.
Defined.

End SearchExtras.

(* ================================================================== *)
(** * Further properties of the image pipeline *)

Module ImageExtras.

Import ImageProcessor ImageProperties SearchExtras.

(** ** Pages for which the rasterizer reports no file *)

Lemma collect_paths_In (rs : list ConvertResult) (p : string) :
  In p (collect_paths rs) <->
  is_empty p = false /\ exists r, In r rs /\ path r = Some p.
Proof.
  induction rs as [|r rs IH]; simpl.
  - split; [intros [] | intros (_ & r & [] & _)].
  - unfold path_truthy at 1. destruct (path r) as [q|] eqn:Hq.
    + destruct (is_empty q) eqn:He.
      * rewrite IH. split.
        -- intros (H & r' & Hin & Hp). eauto 6.
        -- intros (H & r' & [<- | Hin] & Hp); [congruence | eauto].
      * simpl. rewrite IH. split.
        -- intros [<- | (H & r' & Hin & Hp)]; eauto 6.
        -- intros (H & r' & [<- | Hin] & Hp); [left; congruence | eauto 6].
    + rewrite IH. split.
      * intros (H & r' & Hin & Hp). eauto 6.
      * intros (H & r' & [<- | Hin] & Hp); [congruence | eauto].
Qed.

(** X7.  Whatever the rasterizer reports, [extractImagesFromPDF] returns
    exactly the non-empty file names in the report, in page order, and
    [processImagesFromPDF] numbers them by their position among the
    images kept.  So the image of a page comes at the position, and with
    the [pageNumber], given by the count of stored pages before it: its
    [pageNumber] is its page in the PDF exactly when no earlier page is
    missing, and is lower by the number of missing earlier pages
    otherwise. *)
Theorem X7_page_numbers_skip_missing_images (env : Env)
    (pdfPath tempDir : string) (rasterized : list ConvertResult) :
  pdf2pic_bulk env pdfPath (pdf2picOptions env pdfPath tempDir) = Ok rasterized ->
  extractImagesFromPDF env pdfPath tempDir = stored_pages rasterized /\
  (forall p, In p (extractImagesFromPDF env pdfPath tempDir) <->
             is_empty p = false /\
             exists r, In r rasterized /\ path r = Some p) /\
  map ImageProcessor.imagePath (processImagesFromPDF env pdfPath tempDir) =
    stored_pages rasterized /\
  map pageNumber (processImagesFromPDF env pdfPath tempDir) =
    map Some (seq 1 (List.length (filter stored rasterized))) /\
  (forall before page after,
     rasterized = (before ++ page :: after)%list ->
     stored page = true ->
     let kept := List.length (filter stored before) in
     exists r,
       nth_error (processImagesFromPDF env pdfPath tempDir) kept = Some r /\
       path page = Some (ImageProcessor.imagePath r) /\
       pageNumber r = Some (kept + 1) /\
       List.length before + 1 =
         kept + 1 + List.length (filter (fun q => negb (stored q)) before) /\
       (pageNumber r = Some (List.length before + 1) <->
        forallb stored before = true)).
Proof.
  intros Hbulk.
  assert (Hx : extractImagesFromPDF env pdfPath tempDir = stored_pages rasterized)
    by exact (extractImagesFromPDF_stored env pdfPath tempDir Hbulk).
  split; [exact Hx|]. split; [|split; [|split]].
  - intros p. unfold extractImagesFromPDF. cbv zeta. rewrite Hbulk.
    cbn [bind try_catch]. apply collect_paths_In.
  - unfold processImagesFromPDF. cbv zeta.
    rewrite describe_pages_imagePath. exact Hx.
  - unfold processImagesFromPDF. cbv zeta.
    rewrite (describe_pages_pageNumber env pdfPath _ 0), Hx.
    unfold stored_pages. rewrite length_map. reflexivity.
  - intros before page after -> Hst kept.
    assert (Hle : kept <= List.length before) by apply filter_length_le.
    assert (Hnth : nth_error (stored_pages (before ++ page :: after)) kept =
                   Some (page_path page)).
    { unfold stored_pages. rewrite filter_app, map_app. cbn [filter].
      rewrite Hst. cbn [map].
      rewrite nth_error_app2 by (rewrite length_map; apply Nat.le_refl).
      rewrite length_map. subst kept. rewrite Nat.sub_diag. reflexivity. }
    eexists. split.
    + unfold processImagesFromPDF. cbv zeta. rewrite Hx.
      apply describe_pages_nth. exact Hnth.
    + cbn [ImageProcessor.imagePath pageNumber].
      split; [exact (stored_path _ Hst)|]. split; [reflexivity|].
      split; [subst kept; rewrite <- (filter_length stored before); lia|].
      rewrite <- (filter_all stored before). fold kept.
      split; [intros [= H]; lia | intros ->; reflexivity].
Qed.

(** A rasterizer that reports no file for the second of three pages. *)
Definition env_page2_missing : Env :=
  {| path_join := path_join demo_env;
     path_basename := path_basename demo_env;
     path_basename_ext := path_basename_ext demo_env;
     path_extname := path_extname demo_env;
     os_tmpdir := os_tmpdir demo_env;
     mkdir := mkdir demo_env;
     readFile := readFile demo_env;
     sha256_hex := sha256_hex demo_env;
     filesDir := filesDir demo_env;
     filesDir_readable := filesDir_readable demo_env;
     filesDir_entries := filesDir_entries demo_env;
     pdf2pic_bulk := fun _ _ =>
       Ok [ {| path := Some "/tmp/p.1.png" |};
            {| path := None |};
            {| path := Some "/tmp/p.3.png" |} ];
     sharp_toFile := sharp_toFile demo_env;
     sharp_metadata := sharp_metadata demo_env;
     directoryLoader_load := directoryLoader_load demo_env;
     summarize := summarize demo_env |}.

Lemma X7_page_numbers_skip_missing_images_witness :
  map ImageProcessor.imagePath
      (processImagesFromPDF env_page2_missing "/in/p.pdf" "/tmp") =
    ["/tmp/p.1.png"; "/tmp/p.3.png"] /\
  map pageNumber (processImagesFromPDF env_page2_missing "/in/p.pdf" "/tmp") =
    [Some 1; Some 2] /\
  exists r,
    nth_error (processImagesFromPDF env_page2_missing "/in/p.pdf" "/tmp") 1 = Some r /\
    ImageProcessor.imagePath r = "/tmp/p.3.png" /\
    pageNumber r = Some 2.
Proof.
  destruct (@X7_page_numbers_skip_missing_images env_page2_missing
              "/in/p.pdf" "/tmp" _ eq_refl)
    as (_ & _ & Hpaths & Hnumbers & Hpage).
  split; [exact Hpaths|]. split; [exact Hnumbers|].
  destruct (Hpage [ {| path := Some "/tmp/p.1.png" |}; {| path := None |} ]
                  {| path := Some "/tmp/p.3.png" |} [] eq_refl eq_refl)
    as (r & Hnth & Hpath & Hnum & _).
  exists r. split; [exact Hnth|]. split; [|exact Hnum].
  simpl in Hpath. injection Hpath as <-. reflexivity.
Defined.

(** ** The description of an image *)

Definition description_head (env : Env) (imagePath : string) : string :=
  "Image file: " ++ path_basename env imagePath ++
  " (" ++ toLowerCase (path_extname env imagePath) ++ ")".

Definition description_tail : string :=
  " - Visual content analysis will be available when vision model is properly configured".

(** X8.  Every description is the file-name head, then optional details,
    then the fixed closing sentence.  When reading the image metadata
    fails there are no details at all; dimensions are given only when
    width and height are both present and non-zero, and the format only
    when it is a non-empty string. *)
Theorem X8_description_shape (env : Env) (imagePath : string) :
  exists dims fmt,
    generateImageDescription env imagePath =
    description_head env imagePath ++ dims ++ fmt ++ description_tail /\
    (forall e, sharp_metadata env imagePath = Throw e -> dims = "" /\ fmt = "") /\
    (forall m, sharp_metadata env imagePath = Ok m ->
       (dims = "" <-> nonzero (meta_width m) = None \/ nonzero (meta_height m) = None) /\
       (forall w h, nonzero (meta_width m) = Some w -> nonzero (meta_height m) = Some h ->
          dims = " - Dimensions: " ++ string_of_nat w ++ "x" ++ string_of_nat h) /\
       (fmt = "" <-> meta_format m = None \/ meta_format m = Some "") /\
       (forall f, meta_format m = Some f -> f <> "" -> fmt = " - Format: " ++ f)).
Proof.
  unfold generateImageDescription. cbv zeta. fold (description_head env imagePath).
  fold description_tail.
  destruct (sharp_metadata env imagePath) as [m|e] eqn:Hm.
  - cbn [bind try_catch].
    exists (match nonzero (meta_width m), nonzero (meta_height m) with
            | Some w, Some h => " - Dimensions: " ++ string_of_nat w ++ "x" ++ string_of_nat h
            | _, _ => ""
            end),
           (match meta_format m with
            | Some f => if is_empty f then "" else " - Format: " ++ f
            | None => ""
            end).
    split; [|split; [intros e He; discriminate He|]].
    + destruct (nonzero (meta_width m)) as [w|], (nonzero (meta_height m)) as [h|],
        (meta_format m) as [[|c f]|]; cbn [is_empty];
        rewrite ?sapp_assoc, ?sapp_nil_l, ?sapp_nil_r; reflexivity.
    + intros m' [= <-]. repeat split.
      * destruct (nonzero (meta_width m)), (nonzero (meta_height m));
          try discriminate; auto.
      * destruct (nonzero (meta_width m)), (nonzero (meta_height m));
          intros [H|H]; try discriminate H; reflexivity.
      * intros w h -> ->. reflexivity.
      * destruct (meta_format m) as [[|c f]|]; try discriminate; auto.
      * destruct (meta_format m) as [[|c f]|]; intros [H|H];
          try discriminate H; reflexivity.
      * intros f -> Hf. destruct f; [contradiction Hf; reflexivity | reflexivity].
  - cbn [bind try_catch]. exists "", "".
    split; [rewrite ?sapp_nil_l; reflexivity|].
    split; [auto | intros m Habs; discriminate Habs].
Qed.

Lemma X8_description_shape_witness :
  generateImageDescription demo_env "/in/photo.png" =
  description_head demo_env "/in/photo.png" ++
  " - Dimensions: 800x600" ++ " - Format: png" ++ description_tail.
Proof.
  destruct (X8_description_shape demo_env "/in/photo.png")
    as (dims & fmt & Heq & _ & Hok).
  destruct (Hok _ eq_refl) as (_ & Hdims & _ & Hfmt).
  rewrite Heq, (Hdims 800 600 eq_refl eq_refl), (Hfmt "png" eq_refl).
  - reflexivity.
  - discriminate.
Defined.

End ImageExtras.

(* ================================================================== *)
(** * Further properties of ingestion *)

Module SeedExtras.

Import ImageProcessor Seed SeedProperties.

(** ** Scanning the input root for images *)

Section DirentInduction.
Variable P : Dirent -> Prop.
Hypothesis P_file : forall name, P (DFile name).
Hypothesis P_other : forall name, P (DOther name).
Hypothesis P_directory :
  forall name readable entries,
    Forall P entries -> P (DDirectory name readable entries).

Fixpoint Dirent_induction (entry : Dirent) : P entry :=
  match entry with
  | DFile name => P_file name
  | DOther name => P_other name
  | DDirectory name readable entries =>
      P_directory name readable
        ((fix all (es : list Dirent) : Forall P es :=
            match es with
            | [] => Forall_nil P
            | e :: es' => Forall_cons e (Dirent_induction e) (all es')
            end) entries)
  end.
End DirentInduction.

Section WithEnv.
Variable env : Env.

(** Every directory at or below the entry can be listed. *)
Fixpoint readable_tree (entry : Dirent) : bool :=
  match entry with
  | DDirectory _ readable entries => andb readable (forallb readable_tree entries)
  | _ => true
  end.

(** The regular files at or below the entry, depth first, in directory
    order, each with its path from [dir]. *)
Fixpoint files_below (dir : string) (entry : Dirent) : list string :=
  match entry with
  | DFile name => [path_join env dir name]
  | DDirectory name _ entries =>
      flat_map (files_below (path_join env dir name)) entries
  | DOther _ => []
  end.

Definition scan_error : JsError := Failure "EACCES: permission denied, scandir".

Lemma scanEntry_directory (dir name : string) (readable : bool)
    (entries : list Dirent) (acc : list string) :
  scanEntry env dir (DDirectory name readable entries) acc =
  if readable then scanEntries env (path_join env dir name) entries acc
  else Throw scan_error.
Proof.
  cbn [scanEntry]. destruct readable; [|reflexivity].
  revert acc. induction entries as [|e es IH]; intros acc; [reflexivity|].
  cbn [scanEntries].
  destruct (scanEntry env (path_join env dir name) e acc); [apply IH | reflexivity].
Qed.

Lemma scanEntry_spec (entry : Dirent) :
  forall dir acc,
    scanEntry env dir entry acc =
    if readable_tree entry
    then Ok (acc ++ filter (isSupportedImageFormat env) (files_below dir entry))%list
    else Throw scan_error.
Proof.
  induction entry as [name|name|name readable entries IH] using Dirent_induction;
    intros dir acc.
  - cbn [scanEntry readable_tree files_below filter].
    destruct (isSupportedImageFormat env (path_join env dir name));
      [reflexivity | now rewrite app_nil_r].
  - cbn. now rewrite app_nil_r.
  - rewrite scanEntry_directory. cbn [readable_tree files_below].
    destruct readable; [|reflexivity]. cbn [andb].
    generalize (path_join env dir name) as sub. intros sub. revert acc.
    induction IH as [|e es He _ IHes]; intros acc.
    + cbn. now rewrite app_nil_r.
    + cbn [scanEntries forallb flat_map]. rewrite He.
      destruct (readable_tree e); [|reflexivity].
      cbn [bind andb]. rewrite IHes.
      destruct (forallb readable_tree es); [|reflexivity].
      rewrite filter_app, app_assoc. reflexivity.
Qed.

Lemma scanEntries_spec (entries : list Dirent) :
  forall dir acc,
    scanEntries env dir entries acc =
    if forallb readable_tree entries
    then Ok (acc ++ filter (isSupportedImageFormat env)
                      (flat_map (files_below dir) entries))%list
    else Throw scan_error.
Proof.
  induction entries as [|e es IH]; intros dir acc.
  - cbn. now rewrite app_nil_r.
  - cbn [scanEntries forallb flat_map]. rewrite scanEntry_spec.
    destruct (readable_tree e); [|reflexivity].
    cbn [bind andb]. rewrite IH.
    destruct (forallb readable_tree es); [|reflexivity].
    rewrite filter_app, app_assoc. reflexivity.
Qed.

(** The input root and every directory below it can be listed. *)
Definition root_readable : bool :=
  andb (filesDir_readable env) (forallb readable_tree (filesDir_entries env)).

(** X10.  When every directory can be listed, [findImageFiles] returns
    the regular files under the input root that have a supported image
    extension, depth first in directory order.  When
    some directory at any depth cannot be listed, it throws, and the files
    found before that point are lost with it. *)
Theorem X10_findImageFiles :
  findImageFiles env =
  if root_readable
  then Ok (filter (isSupportedImageFormat env)
                  (flat_map (files_below (filesDir env)) (filesDir_entries env)))
  else Throw scan_error.
Proof.
  unfold findImageFiles, root_readable.
  destruct (filesDir_readable env); [|reflexivity].
  rewrite scanEntries_spec. reflexivity.
Qed.

(** X11.  One directory that cannot be listed, anywhere under the input
    root, costs the run all its standalone images, also those in readable
    directories: [processImages] then returns the documents of the PDF
    images alone. *)
Theorem X11_unreadable_directory_drops_standalone_images
    (rawDocs : list Document) (skip pdfSources : list string) :
  root_readable = false ->
  mkdir env (tempDir env) = Ok tt ->
  collect_pdfSources rawDocs skip [] = Ok pdfSources ->
  processImages env rawDocs skip = pdfImageDocs env pdfSources.
Proof.
  intros Hroot Hmk Hpdf. unfold processImages.
  rewrite Hmk, Hpdf. unfold findImageFiles. unfold root_readable in Hroot.
  destruct (filesDir_readable env); [|reflexivity].
  rewrite scanEntries_spec. cbn [andb] in Hroot. rewrite Hroot. reflexivity.
Qed.

End WithEnv.

(** The demonstration machine with an unreadable directory next to
    [photo.png]. *)
Definition env_private_dir : Env :=
  {| path_join := path_join ImageProperties.demo_env;
     path_basename := path_basename ImageProperties.demo_env;
     path_basename_ext := path_basename_ext ImageProperties.demo_env;
     path_extname := path_extname ImageProperties.demo_env;
     os_tmpdir := os_tmpdir ImageProperties.demo_env;
     mkdir := mkdir ImageProperties.demo_env;
     readFile := readFile ImageProperties.demo_env;
     sha256_hex := sha256_hex ImageProperties.demo_env;
     filesDir := "/in";
     filesDir_readable := true;
     filesDir_entries := [DFile "photo.png"; DDirectory "private" false []];
     pdf2pic_bulk := pdf2pic_bulk ImageProperties.demo_env;
     sharp_toFile := sharp_toFile ImageProperties.demo_env;
     sharp_metadata := sharp_metadata ImageProperties.demo_env;
     directoryLoader_load := directoryLoader_load ImageProperties.demo_env;
     summarize := summarize ImageProperties.demo_env |}.

Lemma X11_unreadable_directory_drops_standalone_images_witness :
  processImages env_private_dir ImageProperties.demo_rawDocs [] =
  pdfImageDocs env_private_dir ["/in/report.pdf"; "/in/notes.pdf"].
Proof.
  exact (@X11_unreadable_directory_drops_standalone_images env_private_dir
           ImageProperties.demo_rawDocs [] ["/in/report.pdf"; "/in/notes.pdf"]
           eq_refl eq_refl eq_refl).
Defined.

(** ** Grouping the documents by source *)

(** The property key under which a document is filed. *)
Definition key_of (doc : Document) : string :=
  to_string (get_opt (metadata doc) "source").

(** The documents filed under [k], none when there is no such key. *)
Fixpoint group_of (k : string) (groups : list (string * list Document))
  : list Document :=
  match groups with
  | [] => []
  | (k', docs) :: rest => if String.eqb k' k then docs else group_of k rest
  end.

Lemma group_of_push (k k' : string) (doc : Document)
    (acc : list (string * list Document)) :
  group_of k' (group_push k doc acc) =
  if String.eqb k k' then (group_of k acc ++ [doc])%list else group_of k' acc.
Proof.
  induction acc as [|[k0 ds] rest IH]; simpl.
  - destruct (String.eqb k k'); reflexivity.
  - destruct (String.eqb k0 k) eqn:H0; simpl.
    + apply String.eqb_eq in H0. subst k0.
      destruct (String.eqb k k'); reflexivity.
    + rewrite IH. destruct (String.eqb k k') eqn:Hk; [|reflexivity].
      apply String.eqb_eq in Hk. subst k'. rewrite H0. reflexivity.
Qed.

Lemma group_push_NoDup (k : string) (doc : Document)
    (acc : list (string * list Document)) :
  NoDup (map fst acc) -> NoDup (map fst (group_push k doc acc)).
Proof.
  induction acc as [|[k0 ds] rest IH]; simpl; intros H.
  - constructor; [intros [] | constructor].
  - inversion H as [|x l Hnot Hrest]; subst.
    destruct (String.eqb k0 k) eqn:H0; simpl; [exact H|].
    constructor; [|apply IH; exact Hrest].
    intros Hin. apply group_push_keys in Hin. destruct Hin as [-> | Hin].
    + rewrite String.eqb_refl in H0. discriminate H0.
    + exact (Hnot Hin).
Qed.

Lemma group_push_nonempty (k : string) (doc : Document)
    (acc : list (string * list Document)) :
  Forall (fun g => snd g <> []) acc ->
  Forall (fun g => snd g <> []) (group_push k doc acc).
Proof.
  induction 1 as [|[k0 ds] rest Hd Hrest IH]; simpl.
  - constructor; [discriminate | constructor].
  - destruct (String.eqb k0 k).
    + constructor; [|exact Hrest]. simpl. destruct ds; discriminate.
    + constructor; [exact Hd | exact IH].
Qed.

Lemma docsBySource_invariant (docs : list Document) :
  forall acc groups,
    docsBySource docs acc = Ok groups ->
    (NoDup (map fst acc) -> NoDup (map fst groups)) /\
    (Forall (fun g => snd g <> []) acc -> Forall (fun g => snd g <> []) groups) /\
    (forall k, group_of k groups =
               (group_of k acc ++ filter (fun d => String.eqb (key_of d) k) docs)%list).
Proof.
  induction docs as [|doc rest IH]; intros acc groups H.
  - injection H as <-. repeat split; auto. intros k. now rewrite app_nil_r.
  - simpl in H. unfold get in H.
    destruct (nullish (metadata doc)); [discriminate H|]. cbn [bind] in H.
    apply IH in H. destruct H as (Hnd & Hne & Hgrp). split; [|split].
    + intros Hacc. apply Hnd, group_push_NoDup, Hacc.
    + intros Hacc. apply Hne, group_push_nonempty, Hacc.
    + intros k. rewrite Hgrp, group_of_push. fold (key_of doc). simpl.
      destruct (String.eqb (key_of doc) k) eqn:Hk.
      * apply String.eqb_eq in Hk. subst k. now rewrite <- app_assoc.
      * reflexivity.
Qed.

Lemma docsBySource_fails (docs : list Document) :
  forall acc,
    (exists e, docsBySource docs acc = Throw e) <->
    Exists (fun d => nullish (metadata d) = true) docs.
Proof.
  induction docs as [|doc rest IH]; intros acc; simpl.
  - split; [intros [e H]; discriminate H | intros H; inversion H].
  - unfold get. destruct (nullish (metadata doc)) eqn:Hn; cbn [bind].
    + split; [intros _; now left | eauto].
    + rewrite IH. split; [intros H; now right|].
      intros H. inversion H as [d l Hd | d l Hl]; subst; [congruence | exact Hl].
Qed.

(** X12.  Take documents none of whose sources names a member inherited
    from [Object.prototype].  Grouping files every document under the
    string form of its source: the keys are pairwise distinct, no group
    is empty, the group of a key holds exactly the documents with that
    key, in their original order, and a key exists exactly when some
    document has it.  For such documents grouping throws exactly when
    some document has no metadata object.  (Nothing here depends on the
    order of the keys.) *)
Theorem X12_docsBySource_groups (rawDocs : list Document) :
  Forall (fun d => inherited (key_of d) = false) rawDocs ->
  (forall groups,
     docsBySource rawDocs [] = Ok groups ->
     NoDup (map fst groups) /\
     Forall (fun g => snd g <> []) groups /\
     Forall (fun g => inherited (fst g) = false) groups /\
     (forall k, group_of k groups =
                filter (fun d => String.eqb (key_of d) k) rawDocs) /\
     (forall k, In k (map fst groups) <-> exists d, In d rawDocs /\ key_of d = k)) /\
  ((exists e, docsBySource rawDocs [] = Throw e) <->
   Exists (fun d => nullish (metadata d) = true) rawDocs).
Proof.
  intros Hown.
  split; [|apply docsBySource_fails].
  intros groups H.
  destruct (docsBySource_invariant _ _ H) as (Hnd & Hne & Hgrp).
  specialize (Hnd (NoDup_nil _)). specialize (Hne (Forall_nil _)).
  assert (Hmem : forall k, In k (map fst groups) <-> group_of k groups <> []).
  { clear Hgrp Hnd H. intros k.
    induction groups as [|[k0 ds] rest IH]; simpl.
    - split; [intros [] | intros H; contradiction H; reflexivity].
    - inversion Hne as [|g l Hds Hrest]; subst. simpl in Hds.
      destruct (String.eqb k0 k) eqn:Hk.
      + apply String.eqb_eq in Hk. subst. split; auto.
      + rewrite (IH Hrest). apply String.eqb_neq in Hk.
        split; [intros [Habs | H]; [contradiction | exact H] | auto]. }
  assert (Hkeys : forall k, In k (map fst groups) <->
                            exists d, In d rawDocs /\ key_of d = k).
  { intros k. specialize (Hgrp k). simpl in Hgrp. rewrite Hmem, Hgrp. split.
    - intros Hne'. destruct (filter _ rawDocs) as [|d l] eqn:Hf;
        [contradiction Hne'; reflexivity|].
      assert (Hin : In d (filter (fun d => String.eqb (key_of d) k) rawDocs))
        by (rewrite Hf; now left).
      apply filter_In in Hin. destruct Hin as [Hin Hk].
      apply String.eqb_eq in Hk. eauto.
    - intros (d & Hin & Hk) Hnil.
      assert (Hd : In d (filter (fun d => String.eqb (key_of d) k) rawDocs)).
      { apply filter_In. split; [exact Hin|]. subst k. apply String.eqb_refl. }
      rewrite Hnil in Hd. destruct Hd. }
  split; [exact Hnd|]. split; [exact Hne|]. split; [|split; [exact Hgrp | exact Hkeys]].
  apply Forall_forall. intros [k ds] Hin.
  assert (Hk : In k (map fst groups)) by (apply in_map_iff; exists (k, ds); auto).
  apply Hkeys in Hk. destruct Hk as (d & Hd & <-).
  rewrite Forall_forall in Hown. exact (Hown d Hd).
Qed.

Lemma X12_docsBySource_groups_witness :
  exists groups,
    docsBySource ImageProperties.demo_rawDocs [] = Ok groups /\
    NoDup (map fst groups) /\
    group_of "/in/notes.pdf" groups =
    filter (fun d => String.eqb (key_of d) "/in/notes.pdf")
           ImageProperties.demo_rawDocs.
Proof.
  assert (Hown : Forall (fun d => inherited (key_of d) = false)
                        ImageProperties.demo_rawDocs)
    by (repeat constructor).
  eexists. split; [reflexivity|].
  destruct (proj1 (X12_docsBySource_groups Hown) _ eq_refl)
    as (Hnd & _ & _ & Hgrp & _).
  split; [exact Hnd | exact (Hgrp "/in/notes.pdf")].
Defined.

(** ** What [processDocuments] decides for each source *)

Section Processing.
Variable env : Env.

(** The content of a file, the overview of a group: meaningful where
    reading and summarizing succeed, as they do in a run that completes. *)
Definition content_of (source : string) : string :=
  match readFile env source with
  | Ok content => content
  | Throw _ => ""
  end.

Definition hash_of (source : string) : string :=
  sha256_hex env (content_of source).

Definition overview_of (docs : list Document) : string :=
  match summarize env docs with
  | Ok overview => overview
  | Throw _ => ""
  end.

(** The rows the check is run against. *)
Definition rows_for (handle : option TableName) (db : Db) : list Document :=
  match handle with
  | Some t => rows_of (table_of db t)
  | None => []
  end.

(** The check finds the hash of the source. *)
Definition known (flag : bool) (rows : list Document) (source : string) : bool :=
  andb (negb flag) (existsb (matches (ColEq "hash" (hash_of source))) rows).

Definition record_of (g : string * list Document) : Document :=
  catalogRecord (fst g) (hash_of (fst g)) (overview_of (snd g)).

Lemma firstn_1_existsb {A} (f : A -> bool) (l : list A) :
  Nat.ltb 0 (List.length (firstn 1 (filter f l))) = existsb f l.
Proof.
  induction l as [|x l IH]; [reflexivity|]. simpl.
  destruct (f x); [reflexivity | exact IH].
Qed.

Lemma existsCheck_run (flag : bool) (handle : option TableName) (h : string)
    (db db' : Db) (b : bool) :
  existsCheck flag handle h db = (Ok b, db') ->
  b = andb (negb flag) (existsb (matches (ColEq "hash" h)) (rows_for handle db)) /\
  rows_for handle db' = rows_for handle db /\
  (flag = true -> db' = db).
Proof.
  unfold existsCheck, catalogRecordExists, bindM, query_where_limit, ret, throw.
  destruct flag; [intros [= <- <-]; auto|].
  destruct handle as [t|]; [|discriminate].
  unfold rows_for.
  destruct (table_of db t) as [rows|] eqn:Ht; [|discriminate].
  intros [= <- <-]. cbn [rows_of negb andb].
  split; [apply firstn_1_existsb|]. split; [|discriminate].
  destruct t; simpl in *; rewrite Ht; reflexivity.
Qed.

Lemma process_sources_run (groups : list (string * list Document))
    (handle : option TableName) (flag : bool) :
  forall skip recs db p db',
    process_sources env groups handle flag skip recs db = (Ok p, db') ->
    let rows := rows_for handle db in
    skipSources p =
      (skip ++ map fst (filter (fun g => known flag rows (fst g)) groups))%list /\
    catalogRecords p =
      (recs ++ map record_of
                 (filter (fun g => negb (known flag rows (fst g))) groups))%list /\
    Forall (fun g => exists content, readFile env (fst g) = Ok content) groups /\
    Forall (fun g => known flag rows (fst g) = false ->
                     exists overview, summarize env (snd g) = Ok overview) groups /\
    (flag = true -> db' = db).
Proof.
  induction groups as [|[source docs] rest IH]; intros skip recs db p db' H.
  - injection H as <- <-. cbn. rewrite !app_nil_r. auto.
  - cbn [process_sources] in H. unfold bindM at 1, lift at 1 in H.
    destruct (readFile env source) as [content|e] eqn:Hread; [|discriminate H].
    unfold bindM at 1 in H.
    destruct (existsCheck flag handle (sha256_hex env content) db)
      as [[b|e] db1] eqn:Hc; [|discriminate H].
    apply existsCheck_run in Hc. destruct Hc as (Hb & Hrows & Hdb).
    assert (Hknown : known flag (rows_for handle db) source = b).
    { unfold known, hash_of, content_of. rewrite Hread. now symmetry. }
    cbn zeta. cbn [filter fst snd]. rewrite Hknown.
    destruct b.
    + apply IH in H. cbn zeta in H. rewrite Hrows in H.
      destruct H as (Hs & Hr & Hf & Hsum & Hdb').
      cbn [negb map fst]. rewrite Hs, Hr, <- app_assoc.
      repeat split; auto.
      * constructor; [eauto | exact Hf].
      * constructor; [cbn [fst]; congruence | exact Hsum].
      * intros Hflag. rewrite (Hdb' Hflag). auto.
    + unfold bindM at 1, lift at 1 in H.
      destruct (summarize env docs) as [ov|e] eqn:Hov; [|discriminate H].
      apply IH in H. cbn zeta in H. rewrite Hrows in H.
      destruct H as (Hs & Hr & Hf & Hsum & Hdb').
      cbn [negb map]. rewrite Hs, Hr, <- app_assoc.
      assert (Hrec : record_of (source, docs) =
                     catalogRecord source (sha256_hex env content) ov).
      { unfold record_of, hash_of, content_of, overview_of. cbn [fst snd].
        rewrite Hread, Hov. reflexivity. }
      rewrite Hrec. repeat split; auto.
      * constructor; [eauto | exact Hf].
      * constructor; [eauto | exact Hsum].
      * intros Hflag. rewrite (Hdb' Hflag). auto.
Qed.

Lemma filter_split_length {A} (f : A -> bool) (l : list A) :
  List.length (filter f l) + List.length (filter (fun x => negb (f x)) l) =
  List.length l.
Proof.
  induction l as [|x l IH]; [reflexivity|]. simpl.
  destruct (f x); simpl; lia.
Qed.

Lemma processDocuments_run (rawDocs : list Document)
    (handle : option TableName) (flag : bool) (db db' : Db) (p : Processed) :
  processDocuments env rawDocs handle flag db = (Ok p, db') ->
  exists groups,
    docsBySource rawDocs [] = Ok groups /\
    process_sources env groups handle flag [] [] db = (Ok p, db').
Proof.
  unfold processDocuments, bindM at 1, lift at 1.
  destruct (docsBySource rawDocs []) as [groups|e]; [|discriminate].
  intros H. exists groups. auto.
Qed.

(** X13.  In a call of [processDocuments] that returns, every source is
    decided exactly once: it is either listed as skipped, which happens
    exactly when the check finds its hash, or it gets one catalog record,
    which carries its path, the hash of its content and the overview of
    its documents.  The two lists are in the order of the sources. *)
Theorem X13_every_source_skipped_or_recorded (rawDocs : list Document)
    (handle : option TableName) (flag : bool) (db db' : Db) (p : Processed) :
  processDocuments env rawDocs handle flag db = (Ok p, db') ->
  exists groups,
    docsBySource rawDocs [] = Ok groups /\
    let decided g := known flag (rows_for handle db) (fst g) in
    skipSources p = map fst (filter decided groups) /\
    catalogRecords p = map record_of (filter (fun g => negb (decided g)) groups) /\
    List.length (skipSources p) + List.length (catalogRecords p) =
      List.length groups /\
    Forall (fun g => exists content,
              readFile env (fst g) = Ok content /\
              hash_of (fst g) = sha256_hex env content) groups.
Proof.
  intros H. apply processDocuments_run in H. destruct H as (groups & Hg & H).
  exists groups. split; [exact Hg|].
  apply process_sources_run in H. cbn zeta in *.
  destruct H as (Hs & Hr & Hf & _ & _). cbn [app] in Hs, Hr.
  split; [exact Hs|]. split; [exact Hr|]. split.
  - rewrite Hs, Hr, !length_map. apply filter_split_length.
  - eapply Forall_impl; [|exact Hf]. intros g (content & Hc).
    exists content. split; [exact Hc|]. unfold hash_of, content_of.
    now rewrite Hc.
Qed.

(** X14.  Sources with the same content are decided alike within one
    call: the table is not written during the loop, so either both are
    skipped or both are summarized; in the second case the batch holds a
    record for each of them, with the same hash. *)
Theorem X14_same_content_decided_alike (rawDocs : list Document)
    (handle : option TableName) (flag : bool) (db db' : Db) (p : Processed)
    (s1 s2 content : string) (docs1 docs2 : list Document) :
  processDocuments env rawDocs handle flag db = (Ok p, db') ->
  (exists groups, docsBySource rawDocs [] = Ok groups /\
                  In (s1, docs1) groups /\ In (s2, docs2) groups) ->
  readFile env s1 = Ok content ->
  readFile env s2 = Ok content ->
  (In s1 (skipSources p) <-> In s2 (skipSources p)) /\
  (~ In s1 (skipSources p) ->
   In (catalogRecord s1 (sha256_hex env content) (overview_of docs1))
      (catalogRecords p) /\
   In (catalogRecord s2 (sha256_hex env content) (overview_of docs2))
      (catalogRecords p)).
Proof.
  intros H (groups & Hg & Hin1 & Hin2) Hr1 Hr2.
  apply processDocuments_run in H. destruct H as (groups' & Hg' & H).
  rewrite Hg in Hg'. injection Hg' as <-.
  apply process_sources_run in H. cbn zeta in H.
  destruct H as (Hs & Hr & _). cbn [app] in Hs, Hr.
  assert (Hh1 : hash_of s1 = sha256_hex env content)
    by (unfold hash_of, content_of; now rewrite Hr1).
  assert (Hh2 : hash_of s2 = sha256_hex env content)
    by (unfold hash_of, content_of; now rewrite Hr2).
  assert (Hk : known flag (rows_for handle db) s1 =
               known flag (rows_for handle db) s2)
    by (unfold known; now rewrite Hh1, Hh2).
  assert (Hskip : forall s docs, In (s, docs) groups ->
            (In s (skipSources p) <-> known flag (rows_for handle db) s = true)).
  { intros s docs Hin. rewrite Hs, in_map_iff. split.
    - intros ([s' d'] & <- & Hf). apply filter_In in Hf. apply Hf.
    - intros Hkn. exists (s, docs). split; [reflexivity|].
      apply filter_In. auto. }
  split.
  - rewrite (Hskip _ _ Hin1), (Hskip _ _ Hin2), Hk. reflexivity.
  - intros Hnot.
    assert (Hk1 : known flag (rows_for handle db) s1 = false).
    { destruct (known flag (rows_for handle db) s1) eqn:E; [|reflexivity].
      exfalso. apply Hnot. now apply (Hskip _ _ Hin1). }
    rewrite Hr. split.
    + apply in_map_iff. exists (s1, docs1). split.
      * unfold record_of. cbn [fst snd]. now rewrite Hh1.
      * apply filter_In. cbn [fst]. now rewrite Hk1.
    + apply in_map_iff. exists (s2, docs2). split.
      * unfold record_of. cbn [fst snd]. now rewrite Hh2.
      * apply filter_In. cbn [fst]. now rewrite <- Hk, Hk1.
Qed.

(** ** The steps of a run *)

(** The database once [--overwrite] has dropped what it can. *)
Definition dropped (db : Db) : Db :=
  match catalog db with
  | Some _ => {| catalog := None; chunks := None; queryLog := queryLog db |}
  | None => db
  end.

Lemma dropTables_run (overwrite : bool) (db : Db) :
  dropTables overwrite db = (Ok tt, if overwrite then dropped db else db).
Proof.
  unfold dropTables, dropped, tryM, bindM, dropTable, ret.
  destruct overwrite; [|reflexivity]. simpl.
  destruct (catalog db) as [rows|] eqn:Hc; simpl; [|reflexivity].
  destruct (chunks db); reflexivity.
Qed.

Lemma store_run (docs : list Document) (overwrite : bool) (n : TableName) (db : Db) :
  exists db1,
    store docs overwrite n db = (Ok tt, db1) /\
    queryLog db1 = queryLog db /\
    (docs = [] -> db1 = db) /\
    (forall m, m <> n -> table_of db1 m = table_of db m).
Proof.
  unfold store, fromDocuments, ret.
  destruct docs as [|d docs]; cbn [is_nil].
  - exists db. auto.
  - destruct (modeOf overwrite) as [[]|]; eexists; (split; [reflexivity|]);
      (split; [destruct n; reflexivity|]); (split; [discriminate|]);
      intros m Hm; destruct m, n; try reflexivity; contradiction Hm; reflexivity.
Qed.

Lemma seed_steps (overwrite : bool) (db db' : Db) (r : Report) :
  seed env overwrite db = (Ok r, db') ->
  exists loaded rawDocs p db2 db3,
    directoryLoader_load env = Ok loaded /\
    strip_all loaded = Ok rawDocs /\
    processDocuments env rawDocs (handle_of db)
      (skipExistsCheckOf overwrite (exists_of db))
      (if overwrite then dropped db else db) = (Ok p, db2) /\
    r = report_of env rawDocs p /\
    store (catalogRecords p) overwrite CATALOG_TABLE_NAME db2 = (Ok tt, db3) /\
    store (textDocs r ++ imageDocuments r) overwrite CHUNKS_TABLE_NAME db3 =
      (Ok tt, db').
Proof.
  unfold seed, bindM at 1. rewrite openCatalogTable_run.
  unfold bindM at 1. rewrite openChunksTable_run.
  unfold bindM at 1. rewrite dropTables_run.
  unfold bindM at 1, lift at 1.
  destruct (directoryLoader_load env) as [loaded|e] eqn:Hload; [|discriminate].
  unfold bindM at 1, lift at 1.
  destruct (strip_all loaded) as [rawDocs|e] eqn:Hstrip; [|discriminate].
  unfold bindM at 1.
  replace (fst match catalog db with
               | Some _ => (Some CATALOG_TABLE_NAME, true)
               | None => (None, false)
               end) with (handle_of db)
    by (unfold handle_of; destruct (catalog db); reflexivity).
  replace (snd match catalog db with
               | Some _ => (Some CATALOG_TABLE_NAME, true)
               | None => (None, false)
               end) with (exists_of db)
    by (unfold exists_of; destruct (catalog db); reflexivity).
  destruct (processDocuments env rawDocs (handle_of db) _ _) as [[p|e] db2] eqn:Hp;
    [|discriminate].
  unfold bindM at 1.
  destruct (store_run (catalogRecords p) overwrite CATALOG_TABLE_NAME db2)
    as (db3 & Hs3 & _). rewrite Hs3.
  unfold bindM at 1.
  match goal with
  | |- context [store ?docs overwrite CHUNKS_TABLE_NAME db3] =>
      destruct (store_run docs overwrite CHUNKS_TABLE_NAME db3) as (db4 & Hs4 & _)
  end.
  rewrite Hs4. intros [= <- <-].
  exists loaded, rawDocs, p, db2, db3. repeat split; auto.
Qed.

Lemma kept_docs_nil (rawDocs : list Document) : kept_docs rawDocs [] = rawDocs.
Proof.
  unfold kept_docs. induction rawDocs as [|d l IH]; [reflexivity|].
  simpl. f_equal. exact IH.
Qed.

(** X15.  With [--overwrite], and also when the catalog table does not
    exist yet, a run that completes skips nothing and asks the database
    no dedup question: every source gets a catalog record, every stripped
    document goes to the splitter, and the query log is as before. *)
Theorem X15_rebuild_skips_nothing (overwrite : bool) (db db' : Db) (r : Report) :
  overwrite = true \/ catalog db = None ->
  seed env overwrite db = (Ok r, db') ->
  skipSources (processed r) = [] /\
  queryLog db' = queryLog db /\
  exists loaded rawDocs groups,
    directoryLoader_load env = Ok loaded /\
    strip_all loaded = Ok rawDocs /\
    docsBySource rawDocs [] = Ok groups /\
    catalogRecords (processed r) = map record_of groups /\
    textDocs r = TextSplitter.splitDocuments splitter rawDocs.
Proof.
  intros Hmode Hrun.
  destruct (seed_steps _ _ Hrun)
    as (loaded & rawDocs & p & db2 & db3 & Hload & Hstrip & Hp & Hr & Hs3 & Hs4).
  assert (Hflag : skipExistsCheckOf overwrite (exists_of db) = true).
  { unfold skipExistsCheckOf, exists_of.
    destruct Hmode as [-> | ->]; [reflexivity | apply orb_true_r]. }
  rewrite Hflag in Hp.
  apply processDocuments_run in Hp. destruct Hp as (groups & Hg & Hp).
  apply process_sources_run in Hp. cbn zeta in Hp.
  destruct Hp as (Hskip & Hrec & _ & _ & Hdb). specialize (Hdb eq_refl).
  assert (Hnone : filter (fun g : string * list Document =>
                            known true (rows_for (handle_of db)
                                          (if overwrite then dropped db else db))
                                  (fst g)) groups = [])
    by (clear; induction groups; [reflexivity | assumption]).
  assert (Hall : filter (fun g : string * list Document =>
                           negb (known true (rows_for (handle_of db)
                                               (if overwrite then dropped db else db))
                                       (fst g))) groups = groups)
    by (clear; induction groups as [|g l IH];
        [reflexivity | simpl; f_equal; exact IH]).
  rewrite Hnone in Hskip. rewrite Hall in Hrec. cbn [app map] in Hskip, Hrec.
  assert (Hskip' : skipSources (processed r) = [])
    by (rewrite Hr; exact Hskip).
  split; [exact Hskip'|]. split.
  - destruct (store_run (catalogRecords p) overwrite CATALOG_TABLE_NAME db2)
      as (d3 & E3 & L3 & _).
    rewrite E3 in Hs3. injection Hs3 as <-.
    destruct (store_run (textDocs r ++ imageDocuments r) overwrite
                CHUNKS_TABLE_NAME d3) as (d4 & E4 & L4 & _).
    rewrite E4 in Hs4. injection Hs4 as <-.
    rewrite L4, L3, Hdb. unfold dropped.
    destruct overwrite; [|reflexivity]. destruct (catalog db); reflexivity.
  - exists loaded, rawDocs, groups. repeat split; auto.
    + rewrite Hr. exact Hrec.
    + rewrite Hr. cbn [textDocs report_of]. rewrite Hskip, kept_docs_nil.
      reflexivity.
Qed.

(** X16.  [--overwrite] drops the two tables in one guarded block, the
    catalog table first.  When the catalog table exists both tables are
    gone afterwards; when it does not exist the block stops at the first
    drop, and the chunks table is not dropped.  In that case a run that
    stages no chunk leaves the old chunks table in place. *)
Theorem X16_overwrite_drop (db : Db) :
  dropTables true db =
    (Ok tt, match catalog db with
            | Some _ => {| catalog := None; chunks := None; queryLog := queryLog db |}
            | None => db
            end) /\
  dropTables false db = (Ok tt, db) /\
  (forall r db',
     catalog db = None ->
     seed env true db = (Ok r, db') ->
     textDocs r = [] -> imageDocuments r = [] ->
     chunks db' = chunks db).
Proof.
  split; [apply (dropTables_run true)|]. split; [apply (dropTables_run false)|].
  intros r db' Hcat Hrun Ht Hi.
  destruct (seed_steps _ _ Hrun)
    as (loaded & rawDocs & p & db2 & db3 & Hload & Hstrip & Hp & Hr & Hs3 & Hs4).
  apply processDocuments_run in Hp. destruct Hp as (groups & Hg & Hp).
  apply process_sources_run in Hp. cbn zeta in Hp.
  destruct Hp as (_ & _ & _ & _ & Hdb). specialize (Hdb eq_refl).
  destruct (store_run (catalogRecords p) true CATALOG_TABLE_NAME db2)
    as (d3 & E3 & _ & _ & T3).
  rewrite E3 in Hs3. injection Hs3 as <-.
  rewrite Ht, Hi in Hs4. cbn in Hs4. injection Hs4 as <-.
  specialize (T3 CHUNKS_TABLE_NAME). cbn [table_of] in T3.
  rewrite T3 by discriminate. rewrite Hdb. unfold dropped. now rewrite Hcat.
Qed.

End Processing.

(** ** The PDFs that are rasterized *)

Definition is_pdf (s : string) : bool := endsWith (toLowerCase s) ".pdf".

Lemma includes_In (l : list string) (x : string) :
  includes l x = true <-> In x l.
Proof.
  unfold includes. rewrite existsb_exists. split.
  - intros (y & Hin & Heq). apply String.eqb_eq in Heq. now subst.
  - intros Hin. exists x. split; [exact Hin | apply String.eqb_refl].
Qed.

Lemma includes_val_In_iff (l : list string) (s : string) :
  includes_val l (JStr s) = true <-> In s l.
Proof.
  unfold includes_val. rewrite existsb_exists. split.
  - intros (y & Hin & Heq). apply String.eqb_eq in Heq. now subst.
  - intros Hin. exists s. split; [exact Hin | apply String.eqb_refl].
Qed.

Lemma set_add_In (l : list string) (x y : string) :
  In y (set_add l x) <-> In y l \/ y = x.
Proof.
  unfold set_add. destruct (includes l x) eqn:H.
  - apply includes_In in H. split; [auto | intros [Hy | ->]; assumption].
  - rewrite in_app_iff. simpl. intuition.
Qed.

Lemma set_add_NoDup (l : list string) (x : string) :
  NoDup l -> NoDup (set_add l x).
Proof.
  intros Hl. unfold set_add. destruct (includes l x) eqn:H; [exact Hl|].
  assert (Hnot : ~ In x l)
    by (intros Hin; apply includes_In in Hin; congruence).
  clear H. induction Hl as [|a l Ha Hl IH]; simpl.
  - constructor; [intros [] | constructor].
  - constructor.
    + rewrite in_app_iff. simpl. intros [H | [H | []]]; [exact (Ha H)|].
      apply Hnot. now left.
    + apply IH. intros H. apply Hnot. now right.
Qed.

Lemma collect_pdfSources_invariant (rawDocs : list Document) (skip : list string) :
  forall acc pdfs,
    collect_pdfSources rawDocs skip acc = Ok pdfs ->
    (NoDup acc -> NoDup pdfs) /\
    (forall s, In s pdfs <->
               In s acc \/
               exists doc, In doc rawDocs /\
                           get_opt (metadata doc) "source" = JStr s /\
                           ~ In s skip /\ is_pdf s = true).
Proof.
  induction rawDocs as [|doc rest IH]; intros acc pdfs H.
  - injection H as <-. split; [auto|]. intros s. split; [auto|].
    intros [Hs | (d & [] & _)]. exact Hs.
  - simpl in H. unfold get in H.
    destruct (nullish (metadata doc)); [discriminate H|]. cbn [bind] in H.
    assert (Hweaken : forall s acc',
              (In s acc' \/
               exists d, In d rest /\ get_opt (metadata d) "source" = JStr s /\
                         ~ In s skip /\ is_pdf s = true) ->
              In s acc' \/
              exists d, In d (doc :: rest) /\
                        get_opt (metadata d) "source" = JStr s /\
                        ~ In s skip /\ is_pdf s = true).
    { intros s acc' [Hs | (d & Hd & Hrest)]; [left; exact Hs|].
      right. exists d. split; [right; exact Hd | exact Hrest]. }
    destruct (includes_val skip (get_opt (metadata doc) "source")) eqn:Hinc;
      cbn [negb] in H.
    + apply IH in H. destruct H as [Hnd Hin]. split; [exact Hnd|].
      intros s. rewrite Hin. split; [apply Hweaken|].
      intros [Hs | (d & [<- | Hd] & Hsrc & Hskip & Hpdf)].
      * left; exact Hs.
      * exfalso. rewrite Hsrc in Hinc. apply includes_val_In_iff in Hinc.
        exact (Hskip Hinc).
      * right. exists d. auto.
    + destruct (get_opt (metadata doc) "source") as [| |b|n|s0|xs|fs] eqn:Hsrc;
        try discriminate H.
      fold (is_pdf s0) in H. destruct (is_pdf s0) eqn:Hpdf.
      * apply IH in H. destruct H as [Hnd Hin]. split.
        -- intros Hacc. apply Hnd, set_add_NoDup, Hacc.
        -- intros s. rewrite Hin, set_add_In. split.
           ++ intros [[Hs | ->] | Hrest].
              ** left; exact Hs.
              ** right. exists doc. split; [left; reflexivity|].
                 split; [exact Hsrc|]. split; [|exact Hpdf].
                 intros Hin'. apply includes_val_In_iff in Hin'. congruence.
              ** apply Hweaken. right. exact Hrest.
           ++ intros [Hs | (d & [<- | Hd] & Hs & Hskip & Hp)].
              ** left; left; exact Hs.
              ** rewrite Hsrc in Hs. injection Hs as ->. left; right; reflexivity.
              ** right. exists d. auto.
      * apply IH in H. destruct H as [Hnd Hin]. split; [exact Hnd|].
        intros s. rewrite Hin. split; [apply Hweaken|].
        intros [Hs | (d & [<- | Hd] & Hs & Hskip & Hp)].
        -- left; exact Hs.
        -- rewrite Hsrc in Hs. injection Hs as ->. congruence.
        -- right. exists d. auto.
Qed.

(** X17.  The PDFs handed to the rasterizer are the sources of the
    loaded documents that are not skipped and whose path ends in ".pdf"
    in any letter case; each of them is listed once, however many
    documents (pages) it has. *)
Theorem X17_pdf_sources (rawDocs : list Document) (skip pdfSources : list string) :
  collect_pdfSources rawDocs skip [] = Ok pdfSources ->
  NoDup pdfSources /\
  (forall s, In s pdfSources <->
             exists doc, In doc rawDocs /\
                         get_opt (metadata doc) "source" = JStr s /\
                         ~ In s skip /\ is_pdf s = true).
Proof.
  intros H. apply collect_pdfSources_invariant in H. destruct H as [Hnd Hin].
  split; [apply Hnd; constructor|].
  intros s. rewrite Hin. split; [intros [[] | H]; exact H | auto].
Qed.

Definition two_page_docs : list Document :=
  [ {| pageContent := "page one";
       metadata := JObj [("loc", JNum 1); ("source", JStr "/in/Report.PDF")] |};
    {| pageContent := "page two";
       metadata := JObj [("loc", JNum 2); ("source", JStr "/in/Report.PDF")] |};
    {| pageContent := "old";
       metadata := JObj [("loc", JNum 1); ("source", JStr "/in/old.pdf")] |};
    {| pageContent := "text";
       metadata := JObj [("loc", JNum 1); ("source", JStr "/in/notes.txt")] |} ].

Lemma X17_pdf_sources_witness :
  collect_pdfSources two_page_docs ["/in/old.pdf"] [] = Ok ["/in/Report.PDF"] /\
  NoDup ["/in/Report.PDF"].
Proof.
  split; [reflexivity|].
  exact (proj1 (@X17_pdf_sources two_page_docs ["/in/old.pdf"]
                  ["/in/Report.PDF"] eq_refl)).
Defined.

(** ** Stripping the metadata *)

(** X18.  Stripping keeps the text of a document and exactly two
    metadata fields, [loc] and [source], with their values; every other
    field is gone.  Stripping a stripped document changes nothing, and
    stripping fails exactly when the document has no metadata object. *)
Theorem X18_strip_metadata (doc : Document) :
  (nullish (metadata doc) = true -> exists e, strip_metadata doc = Throw e) /\
  (nullish (metadata doc) = false ->
   exists doc',
     strip_metadata doc = Ok doc' /\
     pageContent doc' = pageContent doc /\
     get_opt (metadata doc') "loc" = get_opt (metadata doc) "loc" /\
     get_opt (metadata doc') "source" = get_opt (metadata doc) "source" /\
     (forall k, k <> "loc" -> k <> "source" ->
                get_opt (metadata doc') k = JUndefined) /\
     strip_metadata doc' = Ok doc').
Proof.
  unfold strip_metadata, get. split; intros Hn; rewrite Hn; cbn [bind].
  - eauto.
  - eexists. split; [reflexivity|]. cbn [pageContent metadata get_opt].
    repeat split.
    intros k Hl Hs. cbn [lookup].
    apply String.eqb_neq in Hl. apply String.eqb_neq in Hs.
    rewrite Hl, Hs. reflexivity.
Qed.

Lemma X18_strip_metadata_witness :
  exists doc',
    strip_metadata
      {| pageContent := "notes";
         metadata := JObj [("source", JStr "/in/notes.pdf");
                           ("loc", JObj [("pageNumber", JNum 1)]);
                           ("pdf", JObj [("totalPages", JNum 2)])] |} = Ok doc' /\
    get_opt (metadata doc') "pdf" = JUndefined /\
    strip_metadata doc' = Ok doc'.
Proof.
  destruct (proj2 (X18_strip_metadata
                     {| pageContent := "notes";
                        metadata := JObj [("source", JStr "/in/notes.pdf");
                                          ("loc", JObj [("pageNumber", JNum 1)]);
                                          ("pdf", JObj [("totalPages", JNum 2)])] |})
              eq_refl) as (doc' & Hs & _ & _ & _ & Hk & Hidem).
  exists doc'. split; [exact Hs|]. split; [|exact Hidem].
  apply Hk; discriminate.
Defined.

(** ** A source that cannot be processed *)

Section Failure.
Variable env : Env.

(** The file of the group cannot be read, or (when no check is made) its
    documents cannot be summarized. *)
Definition unprocessable (flag : bool) (g : string * list Document) : Prop :=
  (exists e, readFile env (fst g) = Throw e) \/
  (flag = true /\ exists e, summarize env (snd g) = Throw e).

Lemma process_sources_fails (groups : list (string * list Document))
    (handle : option TableName) (flag : bool) (g : string * list Document) :
  In g groups -> unprocessable flag g ->
  forall skip recs db,
    exists e db',
      process_sources env groups handle flag skip recs db = (Throw e, db').
Proof.
  intros Hin Hbad.
  induction groups as [|[source docs] rest IH]; [destruct Hin|].
  intros skip recs db.
  destruct (process_sources env ((source, docs) :: rest) handle flag skip recs db)
    as [[p|e] db'] eqn:Hrun; [|eauto].
  exfalso. cbn [process_sources] in Hrun. unfold bindM at 1, lift at 1 in Hrun.
  destruct (readFile env source) as [content|e] eqn:Hread; [|discriminate Hrun].
  unfold bindM at 1 in Hrun.
  destruct (existsCheck flag handle (sha256_hex env content) db)
    as [[b|e] db1] eqn:Hc; [|discriminate Hrun].
  assert (Hrest : forall skip' recs',
            process_sources env rest handle flag skip' recs' db1 = (Ok p, db') ->
            In g rest -> False).
  { intros skip' recs' Hr Hin'.
    destruct (IH Hin' skip' recs' db1) as (e & d & He). congruence. }
  destruct Hin as [<- | Hin].
  - destruct Hbad as [[e He] | [-> [e He]]]; cbn [fst snd] in He; [congruence|].
    unfold existsCheck, ret in Hc. injection Hc as <- <-.
    unfold bindM at 1, lift at 1 in Hrun. rewrite He in Hrun. discriminate Hrun.
  - destruct b.
    + exact (Hrest _ _ Hrun Hin).
    + unfold bindM at 1, lift at 1 in Hrun.
      destruct (summarize env docs); [|discriminate Hrun].
      exact (Hrest _ _ Hrun Hin).
Qed.

(** X19.  Nothing guards the loop over the sources: when the file of one
    source cannot be read, or (when no check is made: in a rebuild or
    without a catalog table) one source cannot be summarized, the whole
    run throws.  No batch is committed: in append
    mode both tables are as before the run, the overviews already made
    for other sources are lost, and with [--overwrite] the run ends with
    the tables already dropped. *)
Theorem X19_unprocessable_source_aborts_run (overwrite : bool) (db : Db)
    (loaded rawDocs : list Document) (groups : list (string * list Document))
    (g : string * list Document) :
  directoryLoader_load env = Ok loaded ->
  strip_all loaded = Ok rawDocs ->
  docsBySource rawDocs [] = Ok groups ->
  In g groups ->
  unprocessable (skipExistsCheckOf overwrite (exists_of db)) g ->
  exists e db',
    seed env overwrite db = (Throw e, db') /\
    catalog db' = catalog (if overwrite then dropped db else db) /\
    chunks db' = chunks (if overwrite then dropped db else db).
Proof.
  intros Hload Hstrip Hgroups Hin Hbad.
  destruct (@process_sources_fails groups (handle_of db)
              (skipExistsCheckOf overwrite (exists_of db)) g Hin Hbad [] []
              (if overwrite then dropped db else db)) as (e & db' & Hrun).
  exists e, db'. split.
  - unfold seed, bindM at 1. rewrite openCatalogTable_run.
    unfold bindM at 1. rewrite openChunksTable_run.
    unfold bindM at 1. rewrite dropTables_run.
    unfold bindM at 1, lift at 1. rewrite Hload.
    unfold bindM at 1, lift at 1. rewrite Hstrip.
    unfold bindM at 1.
    replace (fst match catalog db with
                 | Some _ => (Some CATALOG_TABLE_NAME, true)
                 | None => (None, false)
                 end) with (handle_of db)
      by (unfold handle_of; destruct (catalog db); reflexivity).
    replace (snd match catalog db with
                 | Some _ => (Some CATALOG_TABLE_NAME, true)
                 | None => (None, false)
                 end) with (exists_of db)
      by (unfold exists_of; destruct (catalog db); reflexivity).
    unfold processDocuments, bindM at 1, lift at 1. rewrite Hgroups, Hrun.
    reflexivity.
  - exact (process_sources_tables _ _ _ _ _ _ _ Hrun).
Qed.

End Failure.

(** [notes.pdf] has become unreadable. *)
Definition env_notes_unreadable : Env :=
  {| path_join := path_join ImageProperties.demo_env;
     path_basename := path_basename ImageProperties.demo_env;
     path_basename_ext := path_basename_ext ImageProperties.demo_env;
     path_extname := path_extname ImageProperties.demo_env;
     os_tmpdir := os_tmpdir ImageProperties.demo_env;
     mkdir := mkdir ImageProperties.demo_env;
     readFile := fun p =>
       if String.eqb p "/in/report.pdf" then Ok "%PDF-report"
       else Throw (Failure "EACCES");
     sha256_hex := sha256_hex ImageProperties.demo_env;
     filesDir := "/in";
     filesDir_readable := true;
     filesDir_entries := filesDir_entries ImageProperties.demo_env;
     pdf2pic_bulk := pdf2pic_bulk ImageProperties.demo_env;
     sharp_toFile := sharp_toFile ImageProperties.demo_env;
     sharp_metadata := sharp_metadata ImageProperties.demo_env;
     directoryLoader_load := Ok ImageProperties.demo_rawDocs;
     summarize := summarize ImageProperties.demo_env |}.

Lemma X19_unprocessable_source_aborts_run_witness :
  exists e db',
    seed env_notes_unreadable false empty_db = (Throw e, db') /\
    catalog db' = None /\ chunks db' = None.
Proof.
  refine (@X19_unprocessable_source_aborts_run env_notes_unreadable false empty_db
            ImageProperties.demo_rawDocs ImageProperties.demo_rawDocs _
            ("/in/notes.pdf", _) eq_refl eq_refl eq_refl _ _).
  - right. left. reflexivity.
  - left. eexists. reflexivity.
Defined.

(** ** Runs on small machines *)

Lemma X13_every_source_skipped_or_recorded_witness :
  exists groups,
    docsBySource ImageProperties.demo_rawDocs [] = Ok groups /\
    List.length ["/in/report.pdf"] +
    List.length [catalogRecord "/in/notes.pdf" "sha256:%PDF-notes" "An overview."] =
    List.length groups.
Proof.
  destruct (@X13_every_source_skipped_or_recorded ImageProperties.demo_env
              ImageProperties.demo_rawDocs (Some CATALOG_TABLE_NAME) false
              old_catalog_db
              (logged (logged old_catalog_db
                         (CATALOG_TABLE_NAME, ColEq "hash" "sha256:%PDF-report"))
                      (CATALOG_TABLE_NAME, ColEq "hash" "sha256:%PDF-notes"))
              {| skipSources := ["/in/report.pdf"];
                 catalogRecords := [catalogRecord "/in/notes.pdf"
                                      "sha256:%PDF-notes" "An overview."] |}
              eq_refl) as (groups & Hg & _ & _ & Hlen & _).
  exists groups. split; [exact Hg | exact Hlen].
Defined.

(** Two files with the same bytes, and an empty catalog table. *)
Definition env_twins : Env :=
  {| path_join := path_join ImageProperties.demo_env;
     path_basename := path_basename ImageProperties.demo_env;
     path_basename_ext := path_basename_ext ImageProperties.demo_env;
     path_extname := path_extname ImageProperties.demo_env;
     os_tmpdir := os_tmpdir ImageProperties.demo_env;
     mkdir := mkdir ImageProperties.demo_env;
     readFile := fun _ => Ok "%PDF-same";
     sha256_hex := sha256_hex ImageProperties.demo_env;
     filesDir := "/in";
     filesDir_readable := true;
     filesDir_entries := [DFile "a.pdf"; DFile "copy.pdf"];
     pdf2pic_bulk := fun _ _ => Ok [];
     sharp_toFile := sharp_toFile ImageProperties.demo_env;
     sharp_metadata := sharp_metadata ImageProperties.demo_env;
     directoryLoader_load := Ok [];
     summarize := summarize ImageProperties.demo_env |}.

Definition twin_a : Document :=
  {| pageContent := "same";
     metadata := JObj [("loc", JNum 1); ("source", JStr "/in/a.pdf")] |}.

Definition twin_copy : Document :=
  {| pageContent := "same";
     metadata := JObj [("loc", JNum 1); ("source", JStr "/in/copy.pdf")] |}.

Definition empty_catalog_db : Db :=
  {| catalog := Some []; chunks := None; queryLog := [] |}.

Definition twins_processed : Processed :=
  {| skipSources := [];
     catalogRecords := [catalogRecord "/in/a.pdf" "sha256:%PDF-same" "An overview.";
                        catalogRecord "/in/copy.pdf" "sha256:%PDF-same" "An overview."] |}.

Lemma X14_same_content_decided_alike_witness :
  In (catalogRecord "/in/a.pdf" "sha256:%PDF-same" (overview_of env_twins [twin_a]))
     (catalogRecords twins_processed) /\
  In (catalogRecord "/in/copy.pdf" "sha256:%PDF-same" (overview_of env_twins [twin_copy]))
     (catalogRecords twins_processed).
Proof.
  refine (proj2 (@X14_same_content_decided_alike env_twins [twin_a; twin_copy]
                   (Some CATALOG_TABLE_NAME) false empty_catalog_db
                   (logged (logged empty_catalog_db
                              (CATALOG_TABLE_NAME, ColEq "hash" "sha256:%PDF-same"))
                           (CATALOG_TABLE_NAME, ColEq "hash" "sha256:%PDF-same"))
                   twins_processed "/in/a.pdf" "/in/copy.pdf" "%PDF-same"
                   [twin_a] [twin_copy] eq_refl _ eq_refl eq_refl) _).
  - eexists. split; [reflexivity|]. split; [left | right; left]; reflexivity.
  - intros [].
Defined.

Definition demo_rebuild : Result Report * Db :=
  seed ImageProperties.demo_env true old_catalog_db.

Lemma X15_rebuild_skips_nothing_witness :
  skipSources (processed (report_or_empty demo_rebuild)) = [] /\
  queryLog (snd demo_rebuild) = queryLog old_catalog_db.
Proof.
  assert (Hrun : seed ImageProperties.demo_env true old_catalog_db =
                 (Ok (report_or_empty demo_rebuild), snd demo_rebuild))
    by (vm_compute; reflexivity).
  destruct (@X15_rebuild_skips_nothing ImageProperties.demo_env true
              old_catalog_db (snd demo_rebuild) (report_or_empty demo_rebuild)
              (or_introl eq_refl) Hrun) as (Hskip & Hlog & _).
  split; [exact Hskip | exact Hlog].
Defined.

(** An input root without documents or images, and a database that has
    an old chunks table but no catalog table. *)
Definition env_empty_root : Env :=
  {| path_join := path_join ImageProperties.demo_env;
     path_basename := path_basename ImageProperties.demo_env;
     path_basename_ext := path_basename_ext ImageProperties.demo_env;
     path_extname := path_extname ImageProperties.demo_env;
     os_tmpdir := os_tmpdir ImageProperties.demo_env;
     mkdir := mkdir ImageProperties.demo_env;
     readFile := readFile ImageProperties.demo_env;
     sha256_hex := sha256_hex ImageProperties.demo_env;
     filesDir := "/in";
     filesDir_readable := true;
     filesDir_entries := [];
     pdf2pic_bulk := pdf2pic_bulk ImageProperties.demo_env;
     sharp_toFile := sharp_toFile ImageProperties.demo_env;
     sharp_metadata := sharp_metadata ImageProperties.demo_env;
     directoryLoader_load := Ok [];
     summarize := summarize ImageProperties.demo_env |}.

Definition chunks_only_db : Db :=
  {| catalog := None; chunks := Some [twin_a]; queryLog := [] |}.

Definition empty_rebuild : Result Report * Db :=
  seed env_empty_root true chunks_only_db.

Lemma X16_overwrite_drop_witness :
  chunks (snd empty_rebuild) = Some [twin_a].
Proof.
  refine (proj2 (proj2 (X16_overwrite_drop env_empty_root chunks_only_db))
            (report_or_empty empty_rebuild) (snd empty_rebuild)
            eq_refl _ eq_refl eq_refl).
  vm_compute. reflexivity.
Defined.

End SeedExtras.
